(** * id-mcp-reader: the identifier-resolution pipeline of [src/index.ts]

    A shallow embedding of the entry module of the ID MCP reader: the
    identifier parser ([idToEnsName], [parseIdAndUpdateNamespace]), the
    namespace store ([handleSetNamespace], [handleGetNamespace]), the
    content fetcher ([resolveEnsTextRecord]), the line slicer
    ([extractLines]) and the two response formatters ([handleIdTool],
    [handleIdxTool]), followed by the properties of the specification.

    JavaScript strings are modelled as [string] (sequences of 8-bit
    characters), JavaScript integers as [Z], and the module-level variable
    [currentNamespace : string | null] as a field of an explicit state that
    every handler threads through. *)

From Stdlib Require Import String Ascii List ZArith Lia Bool DecimalString.
Import ListNotations.

Open Scope string_scope.

(* ================================================================== *)
(** ** The JavaScript built-ins the module relies on *)
(* ================================================================== *)

Module Js.

(** [s.startsWith(p)] *)
Fixpoint startsWith (s p : string) {struct p} : bool :=
  match p with
  | EmptyString => true
  | String c p' =>
      match s with
      | EmptyString => false
      | String d s' => Ascii.eqb d c && startsWith s' p'
      end
  end.

(** The rest of [s] after the literal [p], when [s] starts with [p]:
    what a match of the anchored pattern [/^p/] leaves behind. *)
Fixpoint dropPrefix (s p : string) {struct p} : option string :=
  match p with
  | EmptyString => Some s
  | String c p' =>
      match s with
      | EmptyString => None
      | String d s' => if Ascii.eqb d c then dropPrefix s' p' else None
      end
  end.

(** [s.substring(1)] *)
Definition substring1 (s : string) : string :=
  match s with
  | EmptyString => EmptyString
  | String _ s' => s'
  end.

(** [s.includes(needle)] *)
Fixpoint includes (s needle : string) {struct s} : bool :=
  startsWith s needle ||
  match s with
  | EmptyString => false
  | String _ s' => includes s' needle
  end.

(** [s.split(sep)] for a one-character separator.  The result is never
    the empty array: the empty string splits into one empty piece. *)
Fixpoint split (s : string) (sep : ascii) : list string :=
  match s with
  | EmptyString => [EmptyString]
  | String c s' =>
      if Ascii.eqb c sep then EmptyString :: split s' sep
      else match split s' sep with
           | [] => [String c EmptyString]
           | piece :: pieces => String c piece :: pieces
           end
  end.

(** [parts.join(sep)] *)
Fixpoint join (parts : list string) (sep : string) : string :=
  match parts with
  | [] => EmptyString
  | [x] => x
  | x :: rest => x ++ sep ++ join rest sep
  end.

(** The index an argument of [Array.prototype.slice] denotes in an array
    of [len] elements: negative values count from the end, and the result
    is clamped to [0 .. len]. *)
Definition relativeIndex (len : nat) (i : Z) : nat :=
  if (i <? 0)%Z then Z.to_nat (Z.max (Z.of_nat len + i) 0)
  else Z.to_nat (Z.min i (Z.of_nat len)).

(** [l.slice(start, stop)]; [stop = None] is the one-argument call. *)
Definition slice {A : Type} (l : list A) (start : Z) (stop : option Z) : list A :=
  let len := List.length l in
  let k := relativeIndex len start in
  let final := match stop with
               | None => len
               | Some e => relativeIndex len e
               end in
  firstn (final - k) (skipn k l).

(** [s.toLowerCase()] on the ASCII letters; other characters are kept. *)
Definition lowerChar (c : ascii) : ascii :=
  let n := nat_of_ascii c in
  if (65 <=? n)%nat && (n <=? 90)%nat then ascii_of_nat (n + 32) else c.

Fixpoint toLowerCase (s : string) : string :=
  match s with
  | EmptyString => EmptyString
  | String c s' => String (lowerChar c) (toLowerCase s')
  end.

(** [s.replace(pat, rep)] with a string pattern: the first occurrence
    only. *)
Fixpoint replaceFirst (s pat rep : string) {struct s} : string :=
  match dropPrefix s pat with
  | Some rest => rep ++ rest
  | None =>
      match s with
      | EmptyString => EmptyString
      | String c s' => String c (replaceFirst s' pat rep)
      end
  end.

(** [String(n)] for an integer [n], as a template literal prints it. *)
Definition numberToString (n : Z) : string :=
  NilZero.string_of_int (Z.to_int n).

(** Truthiness of a [string | null] value: [null] and [""] are falsy. *)
Definition truthy (v : option string) : bool :=
  match v with
  | None => false
  | Some EmptyString => false
  | Some _ => true
  end.

End Js.

Definition LF : string := String (ascii_of_nat 10) EmptyString.
Definition DOT : ascii := "."%char.
Definition NEWLINE : ascii := ascii_of_nat 10.

(* ================================================================== *)
(** ** Errors, process state and the handler monad *)
(* ================================================================== *)

(** The three [ErrorCode]s the module uses. *)
Inductive ErrorCode : Type :=
| InvalidParams
| InternalError
| MethodNotFound.

Record McpError : Type := mkMcpError {
  code : ErrorCode;
  message : string
}.

(** What a JavaScript [throw] can carry here: an [McpError], or any other
    exception, of which only the message is ever read. *)
Inductive Exn : Type :=
| ExMcp (e : McpError)
| ExOther (msg : string).

(** The outbound calls of the content fetcher, in the order they are made. *)
Inductive NetCall : Type :=
| GetEnsResolver (name : string)
| ReadContract (address node key : string).

(** [currentNamespace] is the module-level [let currentNamespace: string |
    null = null]; [network] records the outbound calls made so far. *)
Record State : Type := mkState {
  currentNamespace : option string;
  network : list NetCall
}.

Definition initialState : State :=
  {| currentNamespace := None; network := [] |}.

(** A handler runs on the state and either throws or returns; the state it
    leaves behind is kept in both cases. *)
Definition M (A : Type) : Type := State -> (Exn + A) * State.

Definition ret {A : Type} (a : A) : M A := fun st => (inr a, st).

Definition throw {A : Type} (e : Exn) : M A := fun st => (inl e, st).

Definition bind {A B : Type} (m : M A) (k : A -> M B) : M B :=
  fun st =>
    match m st with
    | (inl e, st') => (inl e, st')
    | (inr a, st') => k a st'
    end.

Definition tryCatch {A : Type} (m : M A) (handler : Exn -> M A) : M A :=
  fun st =>
    match m st with
    | (inl e, st') => handler e st'
    | (inr a, st') => (inr a, st')
    end.

Definition readNamespace : M (option string) :=
  fun st => (inr (currentNamespace st), st).

Definition writeNamespace (v : option string) : M unit :=
  fun st => (inr tt, {| currentNamespace := v; network := network st |}).

Declare Scope handler_scope.
Delimit Scope handler_scope with handler.
Notation "x <- m ;; k" := (bind m (fun x => k))
  (at level 61, m at next level, right associativity) : handler_scope.
Notation "m ;; k" := (bind m (fun _ => k))
  (at level 61, right associativity) : handler_scope.
Open Scope handler_scope.

Definition throwMcp {A : Type} (c : ErrorCode) (msg : string) : M A :=
  throw (ExMcp (mkMcpError c msg)).

(** The name-resolution client, a black box: [normalize] and [namehash] are
    local computations, [getEnsResolver] and [readText] are network reads
    whose answer may depend on the moment of the call (the number of calls
    made before it).  [inl msg] stands for a thrown [Error(msg)]. *)
Record Chain : Type := mkChain {
  normalize : string -> string + string;
  getEnsResolver : nat -> string -> string + option string;
  namehash : string -> string;
  readText : nat -> string -> string -> string -> string + string
}.

Definition liftThrowing {A : Type} (r : string + A) : M A :=
  match r with
  | inl msg => throw (ExOther msg)
  | inr a => ret a
  end.

Definition netCall {A : Type} (c : NetCall) (answer : nat -> string + A) : M A :=
  fun st =>
    let st' := {| currentNamespace := currentNamespace st;
                  network := network st ++ [c] |} in
    match answer (List.length (network st)) with
    | inl msg => (inl (ExOther msg), st')
    | inr a => (inr a, st')
    end.

(** A tool result: [{ content: [{ type: "text", text }] }]. *)
Record ToolResult : Type := mkToolResult { text : string }.

Record IdArgs : Type := mkIdArgs {
  id : string;
  start_line : option Z
}.

Inductive Request : Type :=
| CallId (args : IdArgs)
| CallIdx (args : IdArgs)
| CallSetNamespace (namespace : string)
| CallGetNamespace
| CallUnknown (name : string).

Definition DQ : string := String (ascii_of_nat 34) EmptyString.
Definition APOSTROPHE : string := "'".
Definition PLACEHOLDER : string := "<YOUR-RPC-URL-HERE>".

Definition rpcMessage : string :=
  "Please set your own RPC_URL." ++ LF ++ LF ++
  "Get a free API key from:" ++ LF ++
  "• Alchemy: https://alchemy.com" ++ LF ++
  "• Infura: https://infura.io" ++ LF ++
  "• QuickNode: https://quicknode.com" ++ LF ++ LF ++
  "Then update your MCP server configuration with:" ++ LF ++
  DQ ++ "env" ++ DQ ++ ": { " ++ DQ ++ "RPC_URL" ++ DQ ++ ": " ++ DQ ++
  "https://eth-mainnet.g.alchemy.com/v2/YOUR_API_KEY" ++ DQ ++ " }".

Definition prefixMessage : string :=
  "ID must start with 'id:' or 'idx:' prefix".
Definition shorthandMessage : string :=
  "No namespace set for shorthand ID. Use id_set_namespace first.".
Definition emptyMessage : string :=
  "Invalid ID format. Cannot be empty.".
Definition namespacePrefixMessage : string :=
  "Namespace must start with 'id:' prefix".
Definition noNamespaceMessage : string :=
  "No namespace is currently set".

(** [s.replace(/^id:/, '')] *)
Definition stripId (s : string) : string :=
  match Js.dropPrefix s "id:" with
  | Some rest => rest
  | None => s
  end.

(** [s.replace(/^(id:|idx:)/, '')]: the alternatives are tried in order. *)
Definition stripScheme (s : string) : string :=
  match Js.dropPrefix s "id:" with
  | Some rest => rest
  | None =>
      match Js.dropPrefix s "idx:" with
      | Some rest => rest
      | None => s
      end
  end.

(* ================================================================== *)
(** ** The server: parser, fetcher, slicer and tool handlers *)
(* ================================================================== *)

Section Server.

(** [process.env.RPC_URL] and the resolution client built from it. *)
Variable RPC_URL : option string.
Variable chain : Chain.

(** The tail of [idToEnsName], from [parts] on: the name transformer. *)
Definition toExternalName (parts : list string) : M string :=
  if (List.length parts <? 1)%nat then
    throwMcp InvalidParams emptyMessage
  else
    match parts with
    | [single] => ret (single ++ ".eth")
    | _ =>
        let reversed := rev parts in
        ret (Js.join reversed "." ++ ".eth")
    end.

(** The head of [idToEnsName]: prefix removal and shorthand expansion. *)
Definition resolveId (id : string) : M string :=
  let cleanId := stripScheme id in
  if Js.startsWith cleanId APOSTROPHE then
    ns <- readNamespace ;;
    if negb (Js.truthy ns) then
      throwMcp InvalidParams shorthandMessage
    else
      let namespaceContent :=
        stripId (match ns with Some v => v | None => EmptyString end) in
      ret (namespaceContent ++ "." ++ Js.substring1 cleanId)
  else ret cleanId.

Definition idToEnsName (id : string) : M string :=
  resolvedId <- resolveId id ;;
  toExternalName (Js.split resolvedId DOT).

Definition resolveEnsTextRecord (ensName : string) : M string :=
  tryCatch
    (normalizedName <- liftThrowing (normalize chain ensName) ;;
     resolverAddress <-
       netCall (GetEnsResolver normalizedName)
               (fun t => getEnsResolver chain t normalizedName) ;;
     match resolverAddress with
     | None =>
         throwMcp InvalidParams ("No resolver found for ENS name: " ++ ensName)
     | Some address =>
         let node := namehash chain normalizedName in
         textRecord <-
           netCall (ReadContract address node "root-context")
                   (fun t => readText chain t address node "root-context") ;;
         match textRecord with
         | EmptyString =>
             throwMcp InvalidParams
               ("No root-context text record found for: " ++ ensName)
         | _ => ret textRecord
         end
     end)
    (fun error =>
       match error with
       | ExMcp e => throw (ExMcp e)
       | ExOther msg =>
           throwMcp InternalError
             ("Failed to resolve ENS name " ++ ensName ++ ": " ++ msg)
       end).

Definition extractLines (content : string) (startLine : Z) : string :=
  if (startLine =? 0)%Z then content
  else
    let lines := Js.split content NEWLINE in
    if (Z.of_nat (List.length lines) <=? startLine)%Z then EmptyString
    else Js.join (Js.slice lines startLine None) LF.

Definition parseIdAndUpdateNamespace (id : string) : M unit :=
  let cleanId := stripScheme id in
  if negb (Js.startsWith cleanId APOSTROPHE) && Js.includes cleanId "." then
    let parts := Js.split cleanId DOT in
    if (2 <=? List.length parts)%nat then
      let namespace := Js.join (Js.slice parts 0 (Some (-1)%Z)) "." in
      writeNamespace (Some namespace)
    else ret tt
  else ret tt.

Definition rpcUrl : string :=
  match RPC_URL with
  | Some url => if Js.truthy RPC_URL then url else PLACEHOLDER
  | None => PLACEHOLDER
  end.

Definition idToolText (id ensName : string) (start_line : Z)
           (finalContent : string) : string :=
  "--- ID Metadata ---" ++ LF ++
  "ID: " ++ id ++ LF ++
  "ENS Name: " ++ ensName ++ LF ++
  "Source: ENS Text Record (root-context)" ++ LF ++
  "Start Line: " ++ Js.numberToString start_line ++ LF ++
  LF ++
  "--- Content ---" ++ LF ++
  finalContent.

Definition handleIdTool (args : IdArgs) : M ToolResult :=
  if String.eqb rpcUrl PLACEHOLDER then
    throwMcp InvalidParams rpcMessage
  else
    let id := id args in
    let start_line := match start_line args with Some n => n | None => 0%Z end in
    if negb (Js.startsWith id "id:") && negb (Js.startsWith id "idx:") then
      throwMcp InvalidParams prefixMessage
    else
      parseIdAndUpdateNamespace id ;;
      ensName <- idToEnsName id ;;
      content <- resolveEnsTextRecord ensName ;;
      let finalContent := extractLines content start_line in
      ret {| text := idToolText id ensName start_line finalContent |}.

Definition hintHtml : string :=
  "💡 Suggested execution: `open filename.html` (replace with your desired filename)".
Definition hintBash : string :=
  "💡 Suggested execution: `bash filename.sh` (replace with your desired filename)".
Definition hintPython : string :=
  "💡 Suggested execution: `python filename.py` (replace with your desired filename)".
Definition hintNode : string :=
  "💡 Suggested execution: `node filename.js` (replace with your desired filename)".
Definition hintGeneric : string :=
  "💡 Create the appropriate file and execute immediately".

(** The value [executionSuggestion] ends up with in [handleIdxTool]. *)
Definition executionSuggestion (contentText : string) : string :=
  let lowerContent := Js.toLowerCase contentText in
  if Js.includes lowerContent "html" && Js.includes lowerContent "javascript" then
    hintHtml
  else if Js.includes lowerContent "#!/bin/bash" || Js.includes lowerContent "bash"
          || Js.includes lowerContent "shell" then
    hintBash
  else if Js.includes lowerContent "python"
          || Js.includes lowerContent "#!/usr/bin/env python" then
    hintPython
  else if Js.includes lowerContent "node" || Js.includes lowerContent "javascript"
          || Js.includes lowerContent "npm" then
    hintNode
  else hintGeneric.

Definition idxToolText (modifiedText suggestion : string) : string :=
  modifiedText ++ LF ++
  LF ++
  "--- Execution Ready ---" ++ LF ++
  "This content is prepared for immediate execution." ++ LF ++
  suggestion.

Definition handleIdxTool (args : IdArgs) : M ToolResult :=
  result <- handleIdTool args ;;
  let originalText := text result in
  let modifiedText :=
    Js.replaceFirst originalText "--- ID Metadata ---"
                    "--- IDX Execution Context ---" in
  content <- handleIdTool args ;;
  let contentText := text content in
  ret {| text := idxToolText modifiedText (executionSuggestion contentText) |}.

Definition handleSetNamespace (namespace : string) : M ToolResult :=
  if negb (Js.startsWith namespace "id:") then
    throwMcp InvalidParams namespacePrefixMessage
  else
    let cleanNamespace := stripId namespace in
    writeNamespace (Some cleanNamespace) ;;
    ret {| text := "Namespace set to: " ++ namespace |}.

Definition handleGetNamespace : M ToolResult :=
  ns <- readNamespace ;;
  if negb (Js.truthy ns) then
    throwMcp InvalidParams noNamespaceMessage
  else
    ret {| text := "id:" ++ match ns with Some v => v | None => EmptyString end |}.

Definition toolName (request : Request) : string :=
  match request with
  | CallId _ => "id"
  | CallIdx _ => "idx"
  | CallSetNamespace _ => "id_set_namespace"
  | CallGetNamespace => "id_get_namespace"
  | CallUnknown name => name
  end.

(** The [CallToolRequestSchema] handler. *)
Definition callTool (request : Request) : M ToolResult :=
  let name := toolName request in
  tryCatch
    (match request with
     | CallId args => handleIdTool args
     | CallIdx args => handleIdxTool args
     | CallSetNamespace namespace => handleSetNamespace namespace
     | CallGetNamespace => handleGetNamespace
     | CallUnknown _ => throwMcp MethodNotFound ("Unknown tool: " ++ name)
     end)
    (fun error =>
       match error with
       | ExMcp e => throw (ExMcp e)
       | ExOther msg =>
           throwMcp InternalError ("Error in tool " ++ name ++ ": " ++ msg)
       end).

End Server.

(* ================================================================== *)
(** ** Vocabulary of the statements *)
(* ================================================================== *)

Definition sampleText : string := "a" ++ LF ++ "b" ++ LF ++ "c".

Definition rpcError : Exn := ExMcp (mkMcpError InvalidParams rpcMessage).
Definition prefixError : Exn := ExMcp (mkMcpError InvalidParams prefixMessage).
Definition shorthandError : Exn := ExMcp (mkMcpError InvalidParams shorthandMessage).
Definition emptyError : Exn := ExMcp (mkMcpError InvalidParams emptyMessage).
Definition noNamespaceError : Exn := ExMcp (mkMcpError InvalidParams noNamespaceMessage).

(** The endpoint setting is a real one, not the placeholder. *)
Definition configured (RPC_URL : option string) : bool :=
  negb (String.eqb (rpcUrl RPC_URL) PLACEHOLDER).

(** The identifier carries one of the two scheme prefixes. *)
Definition recognized (id : string) : bool :=
  Js.startsWith id "id:" || Js.startsWith id "idx:".

(** The namespace a full path of two or more segments carries: all its
    segments but the last. *)
Definition impliedNamespace (id : string) : option string :=
  let parts := Js.split (stripScheme id) DOT in
  if negb (Js.startsWith (stripScheme id) APOSTROPHE)
     && (2 <=? List.length parts)%nat
  then Some (Js.join (removelast parts) ".")
  else None.

Definition withNamespace (v : option string) (st : State) : State :=
  match v with
  | Some n => {| currentNamespace := Some n; network := network st |}
  | None => st
  end.

(** The two failures the specification files under configuration errors:
    the placeholder endpoint and the missing namespace. *)
Definition isConfigurationError (e : Exn) : Prop :=
  e = rpcError \/ e = shorthandError.

(* ================================================================== *)
(** ** A sample deployment *)
(* ================================================================== *)

(** An endpoint is configured and every name resolves to a record holding
    [hello world]. *)
Definition demoRpc : option string :=
  Some "https://eth-mainnet.g.alchemy.com/v2/KEY".

Definition demoChain : Chain :=
  {| normalize := fun name => inr name;
     getEnsResolver := fun _ _ => inr (Some "0xResolver");
     namehash := fun name => "namehash(" ++ name ++ ")";
     readText := fun _ _ _ _ => inr "hello world" |}.

Definition plainArgs (id : string) : IdArgs :=
  {| id := id; start_line := None |}.

Definition withStored (namespace : string) : State :=
  {| currentNamespace := Some namespace; network := [] |}.

(* ================================================================== *)
(** ** The tool list and the dispatch by name *)
(* ================================================================== *)

(** An entry of the [ListToolsRequestSchema] reply: the tool's name and the
    [required] properties of its input schema. *)
Record ToolInfo : Type := mkToolInfo {
  tool : string;
  required : list string
}.

Definition listedTools : list ToolInfo :=
  [ {| tool := "id"; required := ["id"] |};
    {| tool := "idx"; required := ["id"] |};
    {| tool := "id_set_namespace"; required := ["namespace"] |};
    {| tool := "id_get_namespace"; required := [] |} ].

(** The [arguments] object of a call on which each cast of the dispatcher's
    [switch] is sound: it carries the fields every handler reads. *)
Record CallArguments : Type := mkCallArguments {
  arguments_id : string;
  arguments_start_line : option Z;
  arguments_namespace : string
}.

(** The [switch (name)] of the [CallToolRequestSchema] handler. *)
Definition requestOf (name : string) (args : CallArguments) : Request :=
  if String.eqb name "id" then
    CallId {| id := arguments_id args; start_line := arguments_start_line args |}
  else if String.eqb name "idx" then
    CallIdx {| id := arguments_id args; start_line := arguments_start_line args |}
  else if String.eqb name "id_set_namespace" then
    CallSetNamespace (arguments_namespace args)
  else if String.eqb name "id_get_namespace" then
    CallGetNamespace
  else CallUnknown name.

Definition handleCallTool (RPC_URL : option string) (chain : Chain)
           (name : string) (args : CallArguments) : M ToolResult :=
  callTool RPC_URL chain (requestOf name args).

Definition SLASH : ascii := "/"%char.

(** [rpcUrl.replace(/\/[^\/]*$/, '/***')] of the direct resolution script:
    the match starts at the first slash that no other slash follows. *)
Fixpoint maskRpcUrl (url : string) : string :=
  match url with
  | EmptyString => EmptyString
  | String c rest =>
      if Ascii.eqb c SLASH && negb (Js.includes rest (String SLASH EmptyString))
      then "/***"
      else String c (maskRpcUrl rest)
  end.


(** The reply and the final state of the execution variant in the sample
    deployment, for [idx:core.subname]. *)
Definition idxDemoReply : ToolResult :=
  {| text :=
       idxToolText
         (Js.replaceFirst
            (idToolText "idx:core.subname" "subname.core.eth" 0 "hello world")
            "--- ID Metadata ---" "--- IDX Execution Context ---")
         hintGeneric |}.

Definition idxDemoState : State :=
  {| currentNamespace := Some "core";
     network :=
       [GetEnsResolver "subname.core.eth";
        ReadContract "0xResolver" "namehash(subname.core.eth)" "root-context";
        GetEnsResolver "subname.core.eth";
        ReadContract "0xResolver" "namehash(subname.core.eth)" "root-context"] |}.

(** The state after further outbound calls. *)
Definition logged (st : State) (calls : list NetCall) : State :=
  {| currentNamespace := currentNamespace st;
     network := (network st ++ calls)%list |}.

Definition internalError (ensName msg : string) : Exn :=
  ExMcp (mkMcpError InternalError
           ("Failed to resolve ENS name " ++ ensName ++ ": " ++ msg)).
Definition noResolverError (ensName : string) : Exn :=
  ExMcp (mkMcpError InvalidParams ("No resolver found for ENS name: " ++ ensName)).
Definition noRecordError (ensName : string) : Exn :=
  ExMcp (mkMcpError InvalidParams
           ("No root-context text record found for: " ++ ensName)).
Definition namespacePrefixError : Exn :=
  ExMcp (mkMcpError InvalidParams namespacePrefixMessage).
Definition unknownToolError (name : string) : Exn :=
  ExMcp (mkMcpError MethodNotFound ("Unknown tool: " ++ name)).

(** The outbound calls of one complete fetch of [normalizedName]. *)
Definition fetchCalls (chain : Chain) (normalizedName address : string)
  : list NetCall :=
  [GetEnsResolver normalizedName;
   ReadContract address (namehash chain normalizedName) "root-context"].

(* ================================================================== *)
(** ** Facts about the string and array built-ins *)
(* ================================================================== *)

Section JsFacts.

Lemma dropPrefix_append (p s : string) : Js.dropPrefix (p ++ s) p = Some s.
Proof.
  induction p as [|c p IH]; simpl; [reflexivity|].
  now rewrite Ascii.eqb_refl.
Qed.

Lemma dropPrefix_Some (s p rest : string) :
  Js.dropPrefix s p = Some rest -> s = p ++ rest.
Proof.
  revert s; induction p as [|c p IH]; intros s H; simpl in *.
  - now inversion H.
  - destruct s as [|d s]; [discriminate|].
    destruct (Ascii.eqb d c) eqn:E; [|discriminate].
    apply Ascii.eqb_eq in E; subst d.
    now rewrite (IH _ H).
Qed.

Lemma startsWith_dropPrefix (s p : string) :
  Js.startsWith s p = match Js.dropPrefix s p with Some _ => true | None => false end.
Proof.
  revert s; induction p as [|c p IH]; intros s; simpl; [reflexivity|].
  destruct s as [|d s]; [reflexivity|].
  destruct (Ascii.eqb d c); simpl; [apply IH | reflexivity].
Qed.

Lemma startsWith_append (p s : string) : Js.startsWith (p ++ s) p = true.
Proof. now rewrite startsWith_dropPrefix, dropPrefix_append. Qed.

Lemma startsWith_false_dropPrefix (s p : string) :
  Js.startsWith s p = false -> Js.dropPrefix s p = None.
Proof.
  rewrite startsWith_dropPrefix.
  destruct (Js.dropPrefix s p); [discriminate | reflexivity].
Qed.

(** A one-character prefix test only looks at the head of a non-empty
    string, so appending on the right does not change it. *)
Lemma startsWith_char_append (s t : string) (c : ascii) :
  s <> EmptyString ->
  Js.startsWith (s ++ t) (String c EmptyString)
  = Js.startsWith s (String c EmptyString).
Proof. destruct s as [|d s]; [congruence | reflexivity]. Qed.

Lemma split_not_nil (s : string) (sep : ascii) : Js.split s sep <> [].
Proof.
  destruct s as [|c s]; simpl; [discriminate|].
  destruct (Ascii.eqb c sep); [discriminate|].
  destruct (Js.split s sep); discriminate.
Qed.

Lemma split_length_pos (s : string) (sep : ascii) :
  (1 <= List.length (Js.split s sep))%nat.
Proof.
  pose proof (split_not_nil s sep) as H.
  destruct (Js.split s sep); [congruence | simpl; lia].
Qed.

(** Joining the pieces of a split with the separator gives the string
    back. *)
Lemma join_split (s : string) (sep : ascii) :
  Js.join (Js.split s sep) (String sep EmptyString) = s.
Proof.
  induction s as [|c s IH]; [reflexivity|].
  simpl Js.split.
  destruct (Ascii.eqb c sep) eqn:E.
  - apply Ascii.eqb_eq in E; subst c.
    pose proof (split_not_nil s sep) as Hn.
    destruct (Js.split s sep) as [|y ys]; [congruence|].
    simpl in *. now rewrite IH.
  - pose proof (split_not_nil s sep) as Hn.
    destruct (Js.split s sep) as [|y ys]; [congruence|].
    destruct ys as [|z zs]; simpl in *; now rewrite <- IH.
Qed.

(** A string has two or more pieces exactly when it contains the
    separator. *)
Lemma includes_split (s : string) (sep : ascii) :
  Js.includes s (String sep EmptyString) = (2 <=? List.length (Js.split s sep))%nat.
Proof.
  induction s as [|c s IH]; [reflexivity|].
  simpl Js.includes. simpl Js.split.
  pose proof (split_length_pos s sep) as Hp.
  destruct (Ascii.eqb c sep) eqn:E; simpl.
  - symmetry. destruct (Js.split s sep); simpl in *; [lia | reflexivity].
  - rewrite IH.
    destruct (Js.split s sep) as [|y ys]; simpl in *; [lia | reflexivity].
Qed.

Lemma slice_from_nonneg {A : Type} (l : list A) (start : Z) :
  (0 <= start < Z.of_nat (List.length l))%Z ->
  Js.slice l start None = skipn (Z.to_nat start) l.
Proof.
  intros H. unfold Js.slice, Js.relativeIndex.
  destruct (start <? 0)%Z eqn:E; [lia|].
  rewrite Z.min_l by lia.
  rewrite <- (length_skipn (Z.to_nat start) l).
  apply firstn_all.
Qed.

Lemma slice_from_negative {A : Type} (l : list A) (start : Z) :
  (start < 0)%Z -> (- start <= Z.of_nat (List.length l))%Z ->
  Js.slice l start None = skipn (List.length l - Z.to_nat (- start)) l.
Proof.
  intros Hneg Hle. unfold Js.slice, Js.relativeIndex.
  destruct (start <? 0)%Z eqn:E; [|lia].
  rewrite Z.max_l by lia.
  replace (Z.to_nat (Z.of_nat (List.length l) + start))
    with (List.length l - Z.to_nat (- start))%nat by lia.
  rewrite <- (length_skipn (List.length l - Z.to_nat (- start)) l).
  apply firstn_all.
Qed.

Lemma slice_init {A : Type} (l : list A) :
  Js.slice l 0 (Some (-1)%Z) = removelast l.
Proof.
  unfold Js.slice, Js.relativeIndex. simpl (0 <? 0)%Z. simpl (-1 <? 0)%Z.
  cbv iota.
  replace (Z.to_nat (Z.min 0 (Z.of_nat (List.length l)))) with 0%nat by lia.
  replace (Z.to_nat (Z.max (Z.of_nat (List.length l) + -1) 0))
    with (pred (List.length l)) by lia.
  rewrite Nat.sub_0_r. simpl skipn.
  symmetry. apply removelast_firstn_len.
Qed.

End JsFacts.

(* ================================================================== *)
(** ** The name transformer *)
(* ================================================================== *)

Lemma toExternalName_ok (parts : list string) (st : State) :
  parts <> [] ->
  toExternalName parts st = (inr (Js.join (rev parts) "." ++ ".eth"), st).
Proof.
  intros Hne.
  destruct parts as [|x [|y rest]]; [congruence | reflexivity | reflexivity].
Qed.

Lemma toExternalName_state (parts : list string) (st : State) :
  snd (toExternalName parts st) = st.
Proof. destruct parts as [|x [|y rest]]; reflexivity. Qed.

(** A full path goes to the name transformer as it is split. *)
Lemma resolveId_full (id : string) (st : State) :
  Js.startsWith (stripScheme id) APOSTROPHE = false ->
  resolveId id st = (inr (stripScheme id), st).
Proof. intros H. unfold resolveId. now rewrite H. Qed.

Lemma idToEnsName_full (id : string) (st : State) :
  Js.startsWith (stripScheme id) APOSTROPHE = false ->
  idToEnsName id st
  = (inr (Js.join (rev (Js.split (stripScheme id) DOT)) "." ++ ".eth"), st).
Proof.
  intros H. unfold idToEnsName, bind.
  rewrite (resolveId_full id st H).
  apply toExternalName_ok, split_not_nil.
Qed.

(** C1.  On every non-empty sequence of segments the name transformer
    returns, without touching the state, the segments in reverse order
    joined by dots and followed by [.eth]; on a single segment [X] that is
    [X.eth]; and [idToEnsName] returns that name for every full-path
    identifier whose remainder splits into these segments. *)
Theorem toExternalName_reverses (parts : list string) (st : State) :
  parts <> [] ->
  toExternalName parts st = (inr (Js.join (rev parts) "." ++ ".eth"), st)
  /\ (forall X, parts = [X] -> toExternalName parts st = (inr (X ++ ".eth"), st))
  /\ (forall id,
         Js.startsWith (stripScheme id) APOSTROPHE = false ->
         Js.split (stripScheme id) DOT = parts ->
         idToEnsName id st = (inr (Js.join (rev parts) "." ++ ".eth"), st)).
Proof.
  intros Hne. split; [|split].
  - now apply toExternalName_ok.
  - intros X ->. reflexivity.
  - intros id0 Hs <-. now apply idToEnsName_full.
Qed.

Lemma toExternalName_reverses_witness :
  ["core"; "subname"] <> []
  /\ toExternalName ["core"; "subname"] initialState
     = (inr "subname.core.eth", initialState)
  /\ idToEnsName "id:core.subname" initialState
     = (inr "subname.core.eth", initialState).
Proof.
  split; [discriminate|]. split.
  - apply (toExternalName_reverses ["core"; "subname"] initialState).
    discriminate.
  - apply (toExternalName_reverses ["core"; "subname"] initialState);
      [discriminate | reflexivity | reflexivity].
Defined.

Lemma resolveId_state (id : string) (st : State) :
  snd (resolveId id st) = st.
Proof.
  unfold resolveId, bind, readNamespace.
  destruct (Js.startsWith (stripScheme id) APOSTROPHE); [|reflexivity].
  destruct (negb (Js.truthy (currentNamespace st))); reflexivity.
Qed.

(** Deriving the external name reads the namespace and writes nothing. *)
Lemma idToEnsName_state (id : string) (st : State) :
  snd (idToEnsName id st) = st.
Proof.
  unfold idToEnsName, bind.
  pose proof (resolveId_state id st) as H.
  destruct (resolveId id st) as [[e|resolved] st']; simpl in H; subst st'.
  - reflexivity.
  - apply toExternalName_state.
Qed.

(* ================================================================== *)
(** ** The line slicer *)
(* ================================================================== *)

(** C8.  For a start line that is not negative: zero returns the content
    as it is, a start line at or past the number of lines returns the empty
    string, and any other returns the lines from that index on, joined by
    newlines. *)
Theorem extractLines_from_start (content : string) (startLine : Z) :
  (0 <= startLine)%Z ->
  let lines := Js.split content NEWLINE in
  (startLine = 0%Z -> extractLines content startLine = content)
  /\ ((Z.of_nat (List.length lines) <= startLine)%Z ->
      extractLines content startLine = EmptyString)
  /\ ((startLine < Z.of_nat (List.length lines))%Z ->
      extractLines content startLine
      = Js.join (skipn (Z.to_nat startLine) lines) LF).
Proof.
  intros Hpos lines.
  pose proof (split_length_pos content NEWLINE) as Hlen. fold lines in Hlen.
  repeat split.
  - intros ->. reflexivity.
  - intros Hge. unfold extractLines. fold lines.
    destruct (startLine =? 0)%Z eqn:E0; [lia|].
    destruct (Z.of_nat (List.length lines) <=? startLine)%Z eqn:E1; [reflexivity | lia].
  - intros Hlt. unfold extractLines. fold lines.
    destruct (startLine =? 0)%Z eqn:E0.
    + apply Z.eqb_eq in E0; subst startLine. simpl.
      symmetry. apply join_split.
    + destruct (Z.of_nat (List.length lines) <=? startLine)%Z eqn:E1; [lia|].
      now rewrite slice_from_nonneg by lia.
Qed.

Lemma extractLines_from_start_witness :
  (0 <= 1)%Z
  /\ extractLines sampleText 1 = "b" ++ LF ++ "c"
  /\ extractLines sampleText 0 = sampleText.
Proof.
  split; [lia|]. split.
  - apply (extractLines_from_start sampleText 1); [lia | vm_compute; reflexivity].
  - apply (extractLines_from_start sampleText 0); [lia | reflexivity].
Defined.

Example extractLines_past_end : extractLines sampleText 5 = EmptyString.
Proof. reflexivity. Qed.

(** C10.  For a negative start line whose absolute value does not exceed
    the number of lines, the slicer returns the last [|startLine|] lines
    joined by newlines: the result is built from a suffix of the lines of
    that length. *)
Theorem extractLines_negative (content : string) (startLine : Z) :
  (startLine < 0)%Z ->
  (- startLine <= Z.of_nat (List.length (Js.split content NEWLINE)))%Z ->
  let lines := Js.split content NEWLINE in
  let tail := skipn (List.length lines - Z.to_nat (- startLine)) lines in
  extractLines content startLine = Js.join tail LF
  /\ List.length tail = Z.to_nat (- startLine)
  /\ (exists front, lines = (front ++ tail)%list).
Proof.
  intros Hneg Hle lines tail. fold lines in Hle.
  repeat split.
  - unfold extractLines. fold lines.
    destruct (startLine =? 0)%Z eqn:E0; [lia|].
    destruct (Z.of_nat (List.length lines) <=? startLine)%Z eqn:E1; [lia|].
    now rewrite slice_from_negative by lia.
  - unfold tail. rewrite length_skipn. lia.
  - exists (firstn (List.length lines - Z.to_nat (- startLine)) lines).
    unfold tail. symmetry. apply firstn_skipn.
Qed.

Lemma extractLines_negative_witness :
  (-2 < 0)%Z
  /\ extractLines sampleText (-2) = "b" ++ LF ++ "c".
Proof.
  split; [lia|].
  apply (extractLines_negative sampleText (-2)); [lia | vm_compute; discriminate].
Defined.

(* ================================================================== *)
(** ** How the handlers treat the state *)
(* ================================================================== *)

Lemma parseIdAndUpdateNamespace_spec (id : string) (st : State) :
  parseIdAndUpdateNamespace id st = (inr tt, withNamespace (impliedNamespace id) st).
Proof.
  unfold parseIdAndUpdateNamespace, impliedNamespace.
  change "."%string with (String DOT EmptyString) at 1.
  rewrite includes_split.
  destruct (Js.startsWith (stripScheme id) APOSTROPHE); cbn [negb andb];
    [reflexivity|].
  destruct (2 <=? List.length (Js.split (stripScheme id) DOT))%nat;
    [|reflexivity].
  rewrite slice_init. reflexivity.
Qed.

Section Fetch.

Variable RPC_URL : option string.
Variable chain : Chain.

(** The fetcher only appends to the record of outbound calls. *)
Lemma resolveEnsTextRecord_namespace (ensName : string) (st : State) :
  currentNamespace (snd (resolveEnsTextRecord chain ensName st))
  = currentNamespace st.
Proof.
  unfold resolveEnsTextRecord, tryCatch, bind, liftThrowing, netCall,
    throwMcp, throw, ret.
  destruct (normalize chain ensName) as [msg|normalizedName]; [reflexivity|].
  destruct (getEnsResolver chain _ normalizedName) as [msg|[address|]];
    try reflexivity.
  cbn [network currentNamespace].
  destruct (readText chain _ address _ _) as [msg|[|c record]]; reflexivity.
Qed.

Lemma handleIdTool_placeholder (args : IdArgs) (st : State) :
  configured RPC_URL = false ->
  handleIdTool RPC_URL chain args st = (inl rpcError, st).
Proof.
  unfold configured, handleIdTool. intros H.
  apply negb_false_iff in H. now rewrite H.
Qed.

Lemma handleIdTool_unrecognized (args : IdArgs) (st : State) :
  configured RPC_URL = true ->
  recognized (id args) = false ->
  handleIdTool RPC_URL chain args st = (inl prefixError, st).
Proof.
  unfold configured, recognized, handleIdTool. intros Hc Hr.
  apply negb_true_iff in Hc. rewrite Hc.
  rewrite <- negb_orb, Hr. reflexivity.
Qed.

(** Past the two guards the plain tool is the pipeline: namespace
    update, name derivation, fetch, slicing, formatting. *)
Lemma handleIdTool_pipeline (args : IdArgs) (st : State) :
  configured RPC_URL = true ->
  recognized (id args) = true ->
  handleIdTool RPC_URL chain args st
  = (ensName <- idToEnsName (id args) ;;
     content <- resolveEnsTextRecord chain ensName ;;
     let start := match start_line args with Some n => n | None => 0%Z end in
     ret {| text := idToolText (id args) ensName start
                               (extractLines content start) |})
      (withNamespace (impliedNamespace (id args)) st).
Proof.
  unfold configured, recognized, handleIdTool. intros Hc Hr.
  apply negb_true_iff in Hc. rewrite Hc.
  rewrite <- negb_orb, Hr. cbn [negb].
  unfold bind at 1. now rewrite parseIdAndUpdateNamespace_spec.
Qed.

Lemma handleIdTool_namespace (args : IdArgs) (st : State) :
  currentNamespace (snd (handleIdTool RPC_URL chain args st))
  = if configured RPC_URL && recognized (id args)
    then currentNamespace (withNamespace (impliedNamespace (id args)) st)
    else currentNamespace st.
Proof.
  destruct (configured RPC_URL) eqn:Hc.
  - destruct (recognized (id args)) eqn:Hr; simpl andb.
    + rewrite handleIdTool_pipeline by assumption.
      set (st1 := withNamespace (impliedNamespace (id args)) st).
      unfold bind.
      pose proof (idToEnsName_state (id args) st1) as Hs.
      destruct (idToEnsName (id args) st1) as [[e|ensName] st2];
        simpl in Hs; subst st2; [reflexivity|].
      pose proof (resolveEnsTextRecord_namespace ensName st1) as Hn.
      destruct (resolveEnsTextRecord chain ensName st1) as [[e|content] st3];
        simpl in Hn |- *; exact Hn.
    + now rewrite handleIdTool_unrecognized.
  - now rewrite handleIdTool_placeholder.
Qed.

Lemma handleIdxTool_namespace (args : IdArgs) (st : State) :
  currentNamespace (snd (handleIdxTool RPC_URL chain args st))
  = if configured RPC_URL && recognized (id args)
    then currentNamespace (withNamespace (impliedNamespace (id args)) st)
    else currentNamespace st.
Proof.
  unfold handleIdxTool, bind.
  pose proof (handleIdTool_namespace args st) as H1.
  destruct (handleIdTool RPC_URL chain args st) as [[e|result] st1];
    simpl in H1; [exact H1|].
  pose proof (handleIdTool_namespace args st1) as H2.
  destruct (handleIdTool RPC_URL chain args st1) as [[e|content] st2];
    simpl in H2 |- *;
    rewrite H2; destruct (configured RPC_URL && recognized (id args));
    try exact H1;
    destruct (impliedNamespace (id args)); simpl in *; auto.
Qed.

(** A failure of the plain tool is a failure of the execution variant,
    with the same error and the same state. *)
Lemma handleIdxTool_fails (args : IdArgs) (st st' : State) (e : Exn) :
  handleIdTool RPC_URL chain args st = (inl e, st') ->
  handleIdxTool RPC_URL chain args st = (inl e, st').
Proof. intros H. unfold handleIdxTool, bind. now rewrite H. Qed.

Lemma callTool_mcp (request : Request) (st st' : State) (e : McpError) :
  match request with
  | CallId args => handleIdTool RPC_URL chain args st
  | CallIdx args => handleIdxTool RPC_URL chain args st
  | CallSetNamespace namespace => handleSetNamespace namespace st
  | CallGetNamespace => handleGetNamespace st
  | CallUnknown name => throwMcp MethodNotFound ("Unknown tool: " ++ name) st
  end = (inl (ExMcp e), st') ->
  callTool RPC_URL chain request st = (inl (ExMcp e), st').
Proof.
  intros H. unfold callTool, tryCatch.
  destruct request; simpl toolName; rewrite H; reflexivity.
Qed.

(** The dispatcher's [catch] rethrows or wraps: the state a handler
    leaves is the state the dispatcher leaves. *)
Lemma callTool_state (request : Request) (st : State) :
  snd (callTool RPC_URL chain request st)
  = snd (match request with
         | CallId args => handleIdTool RPC_URL chain args st
         | CallIdx args => handleIdxTool RPC_URL chain args st
         | CallSetNamespace namespace => handleSetNamespace namespace st
         | CallGetNamespace => handleGetNamespace st
         | CallUnknown name => throwMcp MethodNotFound ("Unknown tool: " ++ name) st
         end).
Proof.
  unfold callTool, tryCatch.
  destruct request; simpl toolName;
    match goal with
    | |- context [match ?m with (_, _) => _ end] =>
        destruct m as [[[e|msg]|r] st']; reflexivity
    end.
Qed.

End Fetch.

(* ================================================================== *)
(** ** The writers of the namespace *)
(* ================================================================== *)

Lemma impliedNamespace_full (id : string) :
  Js.startsWith (stripScheme id) APOSTROPHE = false ->
  (2 <= List.length (Js.split (stripScheme id) DOT))%nat ->
  impliedNamespace id
  = Some (Js.join (removelast (Js.split (stripScheme id) DOT)) ".").
Proof.
  intros Hs Hl. unfold impliedNamespace. rewrite Hs.
  apply Nat.leb_le in Hl. now rewrite Hl.
Qed.

Lemma impliedNamespace_none (id : string) :
  Js.startsWith (stripScheme id) APOSTROPHE = true
  \/ List.length (Js.split (stripScheme id) DOT) = 1%nat ->
  impliedNamespace id = None.
Proof.
  intros [Hs|Hl]; unfold impliedNamespace.
  - now rewrite Hs.
  - rewrite Hl. now rewrite andb_false_r.
Qed.

Lemma impliedNamespace_Some (id n : string) :
  impliedNamespace id = Some n ->
  Js.startsWith (stripScheme id) APOSTROPHE = false
  /\ (2 <= List.length (Js.split (stripScheme id) DOT))%nat
  /\ n = Js.join (removelast (Js.split (stripScheme id) DOT)) ".".
Proof.
  unfold impliedNamespace.
  destruct (Js.startsWith (stripScheme id) APOSTROPHE); cbn [negb andb];
    [discriminate|].
  destruct (2 <=? List.length (Js.split (stripScheme id) DOT))%nat eqn:E;
    [|discriminate].
  intros H. inversion H. apply Nat.leb_le in E. auto.
Qed.

(** C2.  Parsing a full path of two or more segments overwrites the
    namespace with all segments but the last, joined by dots, and so does
    the plain tool once it is past its two guards, whatever the fetch does
    afterwards; a shorthand or a single segment leaves the namespace as it
    was; and after any request the namespace is either unchanged, or was
    written by the namespace-set tool, or was written by this update of an
    identifier tool. *)
Theorem namespace_writers (RPC_URL : option string) (chain : Chain) (st : State) :
  (forall id parts,
      Js.startsWith (stripScheme id) APOSTROPHE = false ->
      parts = Js.split (stripScheme id) DOT ->
      (2 <= List.length parts)%nat ->
      parseIdAndUpdateNamespace id st
      = (inr tt, {| currentNamespace := Some (Js.join (removelast parts) ".");
                    network := network st |})
      /\ (forall start,
             configured RPC_URL = true -> recognized id = true ->
             currentNamespace
               (snd (handleIdTool RPC_URL chain
                       {| id := id; start_line := start |} st))
             = Some (Js.join (removelast parts) ".")))
  /\ (forall id,
         Js.startsWith (stripScheme id) APOSTROPHE = true
         \/ List.length (Js.split (stripScheme id) DOT) = 1%nat ->
         parseIdAndUpdateNamespace id st = (inr tt, st)
         /\ (forall start,
                currentNamespace
                  (snd (handleIdTool RPC_URL chain
                          {| id := id; start_line := start |} st))
                = currentNamespace st))
  /\ (forall request,
         let st' := snd (callTool RPC_URL chain request st) in
         currentNamespace st' = currentNamespace st
         \/ (exists namespace,
                request = CallSetNamespace namespace
                /\ Js.startsWith namespace "id:" = true
                /\ currentNamespace st' = Some (stripId namespace))
         \/ (exists args,
                (request = CallId args \/ request = CallIdx args)
                /\ configured RPC_URL = true
                /\ recognized (id args) = true
                /\ Js.startsWith (stripScheme (id args)) APOSTROPHE = false
                /\ (2 <= List.length (Js.split (stripScheme (id args)) DOT))%nat
                /\ currentNamespace st'
                   = Some (Js.join
                             (removelast (Js.split (stripScheme (id args)) DOT))
                             "."))).
Proof.
  split; [|split].
  - intros id0 parts Hs -> Hl. split.
    + rewrite parseIdAndUpdateNamespace_spec.
      now rewrite (impliedNamespace_full id0 Hs Hl).
    + intros start Hc Hr.
      rewrite handleIdTool_namespace. cbn [id]. rewrite Hc, Hr. cbn [andb].
      now rewrite (impliedNamespace_full id0 Hs Hl).
  - intros id0 H. split.
    + rewrite parseIdAndUpdateNamespace_spec.
      now rewrite (impliedNamespace_none id0 H).
    + intros start. rewrite handleIdTool_namespace. cbn [id].
      rewrite (impliedNamespace_none id0 H).
      now destruct (configured RPC_URL && recognized id0).
  - intros request st'. subst st'. rewrite callTool_state.
    destruct request as [args|args|namespace| |name].
    + rewrite handleIdTool_namespace.
      destruct (configured RPC_URL) eqn:Hc; cbn [andb]; [|now left].
      destruct (recognized (id args)) eqn:Hr; [|now left].
      destruct (impliedNamespace (id args)) as [n|] eqn:Hi; [|now left].
      apply impliedNamespace_Some in Hi. destruct Hi as (Hs & Hl & ->).
      right; right. exists args. cbn [withNamespace currentNamespace]. auto 10.
    + rewrite handleIdxTool_namespace.
      destruct (configured RPC_URL) eqn:Hc; cbn [andb]; [|now left].
      destruct (recognized (id args)) eqn:Hr; [|now left].
      destruct (impliedNamespace (id args)) as [n|] eqn:Hi; [|now left].
      apply impliedNamespace_Some in Hi. destruct Hi as (Hs & Hl & ->).
      right; right. exists args. cbn [withNamespace currentNamespace]. auto 10.
    + unfold handleSetNamespace.
      destruct (Js.startsWith namespace "id:") eqn:Hp; cbn [negb].
      * right; left. exists namespace. auto.
      * now left.
    + left. unfold handleGetNamespace, bind, readNamespace.
      now destruct (negb (Js.truthy (currentNamespace st))).
    + now left.
Qed.

Lemma namespace_writers_witness :
  currentNamespace
    (snd (handleIdTool demoRpc demoChain
            {| id := "id:core.user.subname"; start_line := None |} initialState))
  = Some "core.user"
  /\ parseIdAndUpdateNamespace "id:'subname" (withStored "core")
     = (inr tt, withStored "core")
  /\ parseIdAndUpdateNamespace "id:idreg" (withStored "core")
     = (inr tt, withStored "core").
Proof.
  split; [|split].
  - apply (proj1 (namespace_writers demoRpc demoChain initialState)
             "id:core.user.subname" ["core"; "user"; "subname"]);
      try reflexivity.
    simpl; lia.
  - apply (proj1 (proj2 (namespace_writers demoRpc demoChain (withStored "core")))
             "id:'subname").
    left; reflexivity.
  - apply (proj1 (proj2 (namespace_writers demoRpc demoChain (withStored "core")))
             "id:idreg").
    right; reflexivity.
Defined.

(* ================================================================== *)
(** ** The namespace store *)
(* ================================================================== *)

Lemma stripId_prefixed (s : string) :
  Js.startsWith s "id:" = true -> s = "id:" ++ stripId s.
Proof.
  rewrite startsWith_dropPrefix. unfold stripId.
  destruct (Js.dropPrefix s "id:") as [rest|] eqn:E; [|discriminate].
  intros _. now apply dropPrefix_Some.
Qed.

Lemma truthy_non_empty (v : string) :
  v <> EmptyString -> Js.truthy (Some v) = true.
Proof. destruct v; [congruence | reflexivity]. Qed.

(** The namespace-set tool stores the empty remainder of ["id:"], which
    the namespace-get tool then takes for no namespace at all. *)
Lemma namespace_round_trip_counterexample :
  Js.startsWith "id:" "id:" = true
  /\ handleSetNamespace "id:" initialState
     = (inr {| text := "Namespace set to: id:" |}, withStored EmptyString)
  /\ handleGetNamespace (withStored EmptyString)
     = (inl noNamespaceError, withStored EmptyString)
  /\ fst (handleGetNamespace (snd (handleSetNamespace "id:" initialState)))
     <> inr {| text := "id:" |}.
Proof. repeat split. discriminate. Qed.

(** C3, amended.  For every input that begins with [id:], the
    namespace-set tool succeeds and stores the input without that prefix,
    single segments included; when what follows the prefix is not empty, a
    namespace-get that follows succeeds and returns exactly the input. *)
Theorem namespace_round_trip (s : string) (st : State) :
  Js.startsWith s "id:" = true ->
  let st1 := {| currentNamespace := Some (stripId s); network := network st |} in
  handleSetNamespace s st = (inr {| text := "Namespace set to: " ++ s |}, st1)
  /\ (stripId s <> EmptyString ->
      handleGetNamespace st1 = (inr {| text := s |}, st1)).
Proof.
  intros Hp st1. split.
  - unfold handleSetNamespace. now rewrite Hp.
  - intros Hne. unfold handleGetNamespace, bind, readNamespace.
    cbn [currentNamespace st1].
    rewrite (truthy_non_empty _ Hne). cbn [negb].
    unfold ret. now rewrite <- (stripId_prefixed s Hp).
Qed.

Lemma namespace_round_trip_witness :
  Js.startsWith "id:core" "id:" = true
  /\ handleSetNamespace "id:core" initialState
     = (inr {| text := "Namespace set to: id:core" |}, withStored "core")
  /\ handleGetNamespace (withStored "core")
     = (inr {| text := "id:core" |}, withStored "core").
Proof.
  split; [reflexivity|].
  split.
  - apply (namespace_round_trip "id:core" initialState). reflexivity.
  - apply (namespace_round_trip "id:core" initialState); [reflexivity|discriminate].
Defined.

(* ================================================================== *)
(** ** Shorthand expansion *)
(* ================================================================== *)

Lemma stripScheme_id (rest : string) : stripScheme ("id:" ++ rest) = rest.
Proof. reflexivity. Qed.

Lemma stripScheme_shorthand_idx (rest : string) :
  stripScheme ("idx:'" ++ rest) = "'" ++ rest.
Proof. reflexivity. Qed.

Lemma stripId_unprefixed (s : string) :
  Js.startsWith s "id:" = false -> stripId s = s.
Proof.
  intros H. unfold stripId. now rewrite (startsWith_false_dropPrefix _ _ H).
Qed.

Lemma resolveId_shorthand_unset (id : string) (st : State) :
  Js.startsWith (stripScheme id) APOSTROPHE = true ->
  Js.truthy (currentNamespace st) = false ->
  resolveId id st = (inl shorthandError, st).
Proof.
  intros Hs Hn. unfold resolveId, bind, readNamespace. now rewrite Hs, Hn.
Qed.

Lemma resolveId_shorthand_set (id N : string) (st : State) :
  Js.startsWith (stripScheme id) APOSTROPHE = true ->
  currentNamespace st = Some N ->
  N <> EmptyString ->
  resolveId id st
  = (inr (stripId N ++ "." ++ Js.substring1 (stripScheme id)), st).
Proof.
  intros Hs Hn Hne. unfold resolveId, bind, readNamespace.
  now rewrite Hs, Hn, (truthy_non_empty _ Hne).
Qed.

(** A stored namespace that itself begins with [id:] loses that prefix in
    the shorthand expansion but not in the full path. *)
Lemma shorthand_expansion_counterexample :
  idToEnsName ("id:'" ++ "x") (withStored "id:core")
  = (inr "x.core.eth", withStored "id:core")
  /\ idToEnsName ("id:" ++ "id:core" ++ "." ++ "x") (withStored "id:core")
     = (inr "x.id:core.eth", withStored "id:core")
  /\ idToEnsName ("id:'" ++ "x") (withStored "id:core")
     <> idToEnsName ("id:" ++ "id:core" ++ "." ++ "x") (withStored "id:core").
Proof. repeat split. discriminate. Qed.

(** C4, amended.  For every stored namespace [N] that is not empty and
    begins neither with [id:] nor with the apostrophe, and every leaf [L],
    converting the shorthand [id:'L] gives the same external name as
    converting the full path [id:N.L], namely the segments of [N.L]
    reversed, joined by dots and followed by [.eth]. *)
Theorem shorthand_expansion (N L : string) (st : State) :
  currentNamespace st = Some N ->
  N <> EmptyString ->
  Js.startsWith N "id:" = false ->
  Js.startsWith N APOSTROPHE = false ->
  idToEnsName ("id:'" ++ L) st = idToEnsName ("id:" ++ N ++ "." ++ L) st
  /\ idToEnsName ("id:'" ++ L) st
     = (inr (Js.join (rev (Js.split (N ++ "." ++ L) DOT)) "." ++ ".eth"), st).
Proof.
  intros Hn Hne Hid Hap.
  assert (Hfull : idToEnsName ("id:" ++ N ++ "." ++ L) st
                  = (inr (Js.join (rev (Js.split (N ++ "." ++ L) DOT)) "." ++ ".eth"), st)).
  { rewrite idToEnsName_full; rewrite stripScheme_id; [reflexivity|].
    unfold APOSTROPHE. rewrite startsWith_char_append by exact Hne. exact Hap. }
  assert (Hshort : idToEnsName ("id:'" ++ L) st
                   = (inr (Js.join (rev (Js.split (N ++ "." ++ L) DOT)) "." ++ ".eth"), st)).
  { unfold idToEnsName, bind.
    rewrite (resolveId_shorthand_set ("id:'" ++ L) N st); try assumption;
      [|reflexivity].
    rewrite (stripId_unprefixed N Hid).
    change (Js.substring1 (stripScheme ("id:'" ++ L))) with L.
    apply toExternalName_ok, split_not_nil. }
  split; [now rewrite Hfull, Hshort | exact Hshort].
Qed.

Lemma shorthand_expansion_witness :
  snd (handleSetNamespace "id:idreg" initialState) = withStored "idreg"
  /\ idToEnsName "id:'subname" (withStored "idreg")
     = idToEnsName "id:idreg.subname" (withStored "idreg")
  /\ idToEnsName "id:'subname" (withStored "idreg")
     = (inr "subname.idreg.eth", withStored "idreg").
Proof.
  split; [reflexivity|].
  apply (shorthand_expansion "idreg" "subname" (withStored "idreg"));
    [reflexivity | discriminate | reflexivity | reflexivity].
Defined.

(* ================================================================== *)
(** ** The entry guards of the identifier tools *)
(* ================================================================== *)

(** With no endpoint configured, an identifier without a scheme prefix is
    answered with the endpoint error, not with the prefix error. *)
Lemma missing_prefix_counterexample :
  recognized "invalid-format" = false
  /\ configured None = false
  /\ handleIdTool None demoChain (plainArgs "invalid-format") initialState
     = (inl rpcError, initialState)
  /\ fst (handleIdTool None demoChain (plainArgs "invalid-format") initialState)
     <> inl prefixError.
Proof. repeat split. discriminate. Qed.

(** C5, amended.  For an identifier that lacks both scheme prefixes, the
    plain tool, the execution variant and the dispatcher in front of them
    fail before anything else is done, leaving the state as it was: with
    the prefix error when an endpoint is configured, and with the endpoint
    error when the endpoint setting is the placeholder, since that check
    comes first. *)
Theorem missing_prefix_after_rpc_gate
        (RPC_URL : option string) (chain : Chain) (args : IdArgs) (st : State) :
  recognized (id args) = false ->
  let outcome := if configured RPC_URL then prefixError else rpcError in
  handleIdTool RPC_URL chain args st = (inl outcome, st)
  /\ handleIdxTool RPC_URL chain args st = (inl outcome, st)
  /\ callTool RPC_URL chain (CallId args) st = (inl outcome, st)
  /\ callTool RPC_URL chain (CallIdx args) st = (inl outcome, st).
Proof.
  intros Hr outcome.
  assert (H : handleIdTool RPC_URL chain args st = (inl outcome, st)).
  { subst outcome. destruct (configured RPC_URL) eqn:Hc.
    - now apply handleIdTool_unrecognized.
    - now apply handleIdTool_placeholder. }
  pose proof (handleIdxTool_fails RPC_URL chain args st st outcome H) as Hx.
  repeat split; try assumption.
  - subst outcome. destruct (configured RPC_URL);
      apply callTool_mcp; exact H.
  - subst outcome. destruct (configured RPC_URL);
      apply callTool_mcp; exact Hx.
Qed.

Lemma missing_prefix_after_rpc_gate_witness :
  recognized "invalid-format" = false
  /\ handleIdTool demoRpc demoChain (plainArgs "invalid-format") initialState
     = (inl prefixError, initialState)
  /\ handleIdxTool None demoChain (plainArgs "invalid-format") initialState
     = (inl rpcError, initialState).
Proof.
  split; [reflexivity|]. split.
  - apply (missing_prefix_after_rpc_gate demoRpc demoChain
             (plainArgs "invalid-format") initialState).
    reflexivity.
  - apply (missing_prefix_after_rpc_gate None demoChain
             (plainArgs "invalid-format") initialState).
    reflexivity.
Defined.

(* ================================================================== *)
(** ** The empty remainder *)
(* ================================================================== *)

Lemma idToEnsName_outcome (id : string) (st : State) :
  (exists name, idToEnsName id st = (inr name, st))
  \/ idToEnsName id st = (inl shorthandError, st).
Proof.
  destruct (Js.startsWith (stripScheme id) APOSTROPHE) eqn:Hs.
  - destruct (Js.truthy (currentNamespace st)) eqn:Ht.
    + left. destruct (currentNamespace st) as [[|c N]|] eqn:Hn;
        try discriminate.
      eexists. unfold idToEnsName, bind.
      rewrite (resolveId_shorthand_set id (String c N) st Hs Hn)
        by discriminate.
      apply toExternalName_ok, split_not_nil.
    + right. unfold idToEnsName, bind.
      now rewrite (resolveId_shorthand_unset id st Hs Ht).
  - left. eexists. now apply idToEnsName_full.
Qed.

(** C6, as the code behaves.  A scheme prefix with nothing after it is not
    rejected: the empty remainder splits into one empty segment, the
    external name [.eth] is derived from it, and the plain tool goes on to
    the fetch with that name.  The rejection with [emptyMessage] is never
    raised, for any identifier. *)
Theorem empty_remainder_not_rejected (st : State) :
  idToEnsName "id:" st = (inr ".eth", st)
  /\ idToEnsName "idx:" st = (inr ".eth", st)
  /\ (forall id, fst (idToEnsName id st) <> inl emptyError)
  /\ handleIdTool demoRpc demoChain (plainArgs "id:") initialState
     = (inr {| text := idToolText "id:" ".eth" 0 "hello world" |},
        {| currentNamespace := None;
           network := [GetEnsResolver ".eth";
                       ReadContract "0xResolver" "namehash(.eth)" "root-context"] |}).
Proof.
  repeat split.
  intros id0 H.
  destruct (idToEnsName_outcome id0 st) as [[name E]|E];
    rewrite E in H; discriminate.
Qed.

(* ================================================================== *)
(** ** Shorthand with no namespace *)
(* ================================================================== *)

Lemma recognized_shorthand (id rest : string) :
  id = "id:'" ++ rest \/ id = "idx:'" ++ rest ->
  recognized id = true
  /\ Js.startsWith (stripScheme id) APOSTROPHE = true.
Proof. intros [-> | ->]; split; reflexivity. Qed.

(** C7.  For a shorthand identifier and a state in which no namespace is
    set, deriving the external name fails with the missing-namespace error;
    the plain tool, the execution variant and the dispatcher fail with a
    configuration error (that same error once an endpoint is configured)
    and leave the state, hence the record of outbound calls, as it was. *)
Theorem shorthand_without_namespace
        (RPC_URL : option string) (chain : Chain) (args : IdArgs)
        (rest : string) (st : State) :
  id args = "id:'" ++ rest \/ id args = "idx:'" ++ rest ->
  Js.truthy (currentNamespace st) = false ->
  let outcome := if configured RPC_URL then shorthandError else rpcError in
  idToEnsName (id args) st = (inl shorthandError, st)
  /\ isConfigurationError outcome
  /\ handleIdTool RPC_URL chain args st = (inl outcome, st)
  /\ handleIdxTool RPC_URL chain args st = (inl outcome, st)
  /\ callTool RPC_URL chain (CallId args) st = (inl outcome, st)
  /\ callTool RPC_URL chain (CallIdx args) st = (inl outcome, st)
  /\ network (snd (callTool RPC_URL chain (CallId args) st)) = network st
  /\ network (snd (callTool RPC_URL chain (CallIdx args) st)) = network st.
Proof.
  intros Hid Hns outcome.
  destruct (recognized_shorthand (id args) rest Hid) as [Hr Hs].
  assert (Hname : idToEnsName (id args) st = (inl shorthandError, st)).
  { unfold idToEnsName, bind.
    now rewrite (resolveId_shorthand_unset (id args) st Hs Hns). }
  assert (H : handleIdTool RPC_URL chain args st = (inl outcome, st)).
  { subst outcome. destruct (configured RPC_URL) eqn:Hc.
    - rewrite handleIdTool_pipeline by assumption.
      rewrite (impliedNamespace_none (id args) (or_introl Hs)).
      cbn [withNamespace]. unfold bind at 1. now rewrite Hname.
    - now apply handleIdTool_placeholder. }
  pose proof (handleIdxTool_fails RPC_URL chain args st st outcome H) as Hx.
  assert (Hc1 : callTool RPC_URL chain (CallId args) st = (inl outcome, st)).
  { subst outcome. destruct (configured RPC_URL); apply callTool_mcp; exact H. }
  assert (Hc2 : callTool RPC_URL chain (CallIdx args) st = (inl outcome, st)).
  { subst outcome. destruct (configured RPC_URL); apply callTool_mcp; exact Hx. }
  repeat split; try assumption.
  - subst outcome. destruct (configured RPC_URL); [now right | now left].
  - now rewrite Hc1.
  - now rewrite Hc2.
Qed.

Lemma shorthand_without_namespace_witness :
  Js.truthy (currentNamespace initialState) = false
  /\ idToEnsName "id:'subname" initialState = (inl shorthandError, initialState)
  /\ handleIdTool demoRpc demoChain (plainArgs "id:'subname") initialState
     = (inl shorthandError, initialState).
Proof.
  split; [reflexivity|]. split.
  - apply (shorthand_without_namespace demoRpc demoChain
             (plainArgs "id:'subname") "subname" initialState);
      [left; reflexivity | reflexivity].
  - apply (shorthand_without_namespace demoRpc demoChain
             (plainArgs "id:'subname") "subname" initialState);
      [left; reflexivity | reflexivity].
Defined.

(* ================================================================== *)
(** ** The execution hint *)
(* ================================================================== *)

(** C9, as the code behaves.  The hint is sniffed from the whole text of
    the plain tool's reply, metadata header included.  Two requests fetch
    the same record, [hello world], whose own hint is the generic one; the
    request whose identifier contains [python] gets the Python hint. *)
Theorem execution_hint_reads_metadata :
  executionSuggestion (extractLines "hello world" 0) = hintGeneric
  /\ handleIdxTool demoRpc demoChain (plainArgs "id:core.subname") initialState
     = (inr {| text :=
                 idxToolText
                   (Js.replaceFirst
                      (idToolText "id:core.subname" "subname.core.eth" 0
                                  (extractLines "hello world" 0))
                      "--- ID Metadata ---" "--- IDX Execution Context ---")
                   hintGeneric |},
        {| currentNamespace := Some "core";
           network :=
             [GetEnsResolver "subname.core.eth";
              ReadContract "0xResolver" "namehash(subname.core.eth)" "root-context";
              GetEnsResolver "subname.core.eth";
              ReadContract "0xResolver" "namehash(subname.core.eth)" "root-context"] |})
  /\ handleIdxTool demoRpc demoChain (plainArgs "id:python.subname") initialState
     = (inr {| text :=
                 idxToolText
                   (Js.replaceFirst
                      (idToolText "id:python.subname" "subname.python.eth" 0
                                  (extractLines "hello world" 0))
                      "--- ID Metadata ---" "--- IDX Execution Context ---")
                   hintPython |},
        {| currentNamespace := Some "python";
           network :=
             [GetEnsResolver "subname.python.eth";
              ReadContract "0xResolver" "namehash(subname.python.eth)" "root-context";
              GetEnsResolver "subname.python.eth";
              ReadContract "0xResolver" "namehash(subname.python.eth)" "root-context"] |})
  /\ hintGeneric <> hintPython.
Proof. repeat split. discriminate. Qed.

(** The tool passes a negative start line to the slicer unchecked. *)
Example handleIdTool_negative_start_line :
  handleIdTool demoRpc
    {| normalize := normalize demoChain;
       getEnsResolver := getEnsResolver demoChain;
       namehash := namehash demoChain;
       readText := fun _ _ _ _ => inr sampleText |}
    {| id := "id:core.subname"; start_line := Some (-1)%Z |} initialState
  = (inr {| text := idToolText "id:core.subname" "subname.core.eth" (-1) "c" |},
     {| currentNamespace := Some "core";
        network :=
          [GetEnsResolver "subname.core.eth";
           ReadContract "0xResolver" "namehash(subname.core.eth)" "root-context"] |}).
Proof. reflexivity. Qed.

(* ================================================================== *)
(** ** More on splitting, joining and searching *)
(* ================================================================== *)

Lemma string_app_assoc (a b c : string) : (a ++ b) ++ c = a ++ (b ++ c).
Proof. induction a as [|x a IH]; simpl; [reflexivity | now rewrite IH]. Qed.

Lemma string_app_empty_r (a : string) : a ++ EmptyString = a.
Proof. induction a as [|x a IH]; simpl; [reflexivity | now rewrite IH]. Qed.

Lemma string_length_app (a b : string) :
  String.length (a ++ b) = (String.length a + String.length b)%nat.
Proof. induction a as [|x a IH]; simpl; [reflexivity | now rewrite IH]. Qed.

Lemma string_app_inv_tail (a b c : string) : a ++ c = b ++ c -> a = b.
Proof.
  revert b; induction a as [|x a IH]; intros b H.
  - destruct b as [|y b]; [reflexivity|].
    exfalso. apply (f_equal String.length) in H.
    simpl in H. rewrite string_length_app in H. lia.
  - destruct b as [|y b].
    + exfalso. apply (f_equal String.length) in H.
      simpl in H. rewrite string_length_app in H. lia.
    + simpl in H. inversion H. f_equal. now apply IH.
Qed.

(** Splitting distributes over a separator in the middle. *)
Lemma split_append (a b : string) (sep : ascii) :
  Js.split (a ++ String sep b) sep = (Js.split a sep ++ Js.split b sep)%list.
Proof.
  induction a as [|c a IH]; simpl.
  - now rewrite Ascii.eqb_refl.
  - destruct (Ascii.eqb c sep); [now rewrite IH|].
    rewrite IH. pose proof (split_not_nil a sep) as Hn.
    destruct (Js.split a sep); [congruence | reflexivity].
Qed.

(** A piece is free of the separator. *)
Definition sepFree (sep : ascii) (piece : string) : Prop :=
  Js.includes piece (String sep EmptyString) = false.

Lemma split_sepFree_one (s : string) (sep : ascii) :
  sepFree sep s -> Js.split s sep = [s].
Proof.
  unfold sepFree. rewrite includes_split. intros H.
  apply Nat.leb_gt in H.
  pose proof (split_length_pos s sep) as Hp.
  pose proof (join_split s sep) as Hj.
  destruct (Js.split s sep) as [|x [|y r]]; simpl in *; try lia.
  now subst.
Qed.

Lemma sepFree_cons (sep c : ascii) (s : string) :
  sepFree sep (String c s) <-> Ascii.eqb c sep = false /\ sepFree sep s.
Proof.
  unfold sepFree. simpl. rewrite andb_true_r.
  destruct (Ascii.eqb c sep); simpl; intuition congruence.
Qed.

Lemma split_pieces_sepFree (s : string) (sep : ascii) :
  Forall (sepFree sep) (Js.split s sep).
Proof.
  induction s as [|c s IH]; simpl.
  - constructor; [reflexivity | constructor].
  - destruct (Ascii.eqb c sep) eqn:E.
    + constructor; [reflexivity | exact IH].
    + pose proof (split_not_nil s sep) as Hn.
      destruct (Js.split s sep) as [|x r]; [congruence|].
      inversion IH; subst. constructor; [|assumption].
      apply sepFree_cons. auto.
Qed.

(** Splitting a join of separator-free pieces gives the pieces back. *)
Lemma split_join (pieces : list string) (sep : ascii) :
  pieces <> [] ->
  Forall (sepFree sep) pieces ->
  Js.split (Js.join pieces (String sep EmptyString)) sep = pieces.
Proof.
  induction pieces as [|x rest IH]; intros Hne Hf; [congruence|].
  inversion Hf as [|? ? Hx Hrest]; subst.
  destruct rest as [|y rest'].
  - simpl. now apply split_sepFree_one.
  - change (Js.join (x :: y :: rest') (String sep EmptyString))
      with (x ++ String sep (Js.join (y :: rest') (String sep EmptyString))).
    rewrite split_append, (split_sepFree_one x sep Hx), IH;
      [reflexivity | discriminate | assumption].
Qed.

Lemma Forall_skipn {A : Type} (P : A -> Prop) (n : nat) (l : list A) :
  Forall P l -> Forall P (skipn n l).
Proof.
  intros H. rewrite <- (firstn_skipn n l) in H.
  now apply Forall_app in H.
Qed.

Lemma includes_here (needle rest : string) :
  Js.includes (needle ++ rest) needle = true.
Proof.
  destruct (needle ++ rest) as [|c t] eqn:E; simpl;
    rewrite <- E, startsWith_append; reflexivity.
Qed.

Lemma includes_later (before s needle : string) :
  Js.includes s needle = true -> Js.includes (before ++ s) needle = true.
Proof.
  intros H. induction before as [|c before IH]; [exact H|].
  simpl. rewrite IH. apply orb_true_r.
Qed.

(** Whatever contains a string contains each of its suffixes. *)
Lemma includes_suffix (s a b : string) :
  Js.includes s (a ++ b) = true -> Js.includes s b = true.
Proof.
  induction s as [|c s IH]; intros H.
  - simpl in H. rewrite orb_false_r in H.
    destruct a as [|x a]; [|destruct b; discriminate].
    simpl. now rewrite orb_false_r.
  - change (Js.includes (String c s) (a ++ b))
      with (Js.startsWith (String c s) (a ++ b) || Js.includes s (a ++ b)) in H.
    apply orb_true_iff in H. destruct H as [H|H].
    + rewrite startsWith_dropPrefix in H.
      destruct (Js.dropPrefix (String c s) (a ++ b)) as [rest|] eqn:E;
        [|discriminate].
      apply dropPrefix_Some in E. rewrite E, string_app_assoc.
      apply includes_later, includes_here.
    + change (Js.includes (String c s) b)
        with (Js.startsWith (String c s) b || Js.includes s b).
      rewrite (IH H). apply orb_true_r.
Qed.

(* ================================================================== *)
(** ** More on the line slicer *)
(* ================================================================== *)

Lemma extractLines_middle (content : string) (n : Z) :
  (0 < n < Z.of_nat (List.length (Js.split content NEWLINE)))%Z ->
  extractLines content n = Js.join (skipn (Z.to_nat n) (Js.split content NEWLINE)) LF.
Proof.
  intros H. unfold extractLines.
  destruct (n =? 0)%Z eqn:E0; [lia|].
  destruct (Z.of_nat (List.length (Js.split content NEWLINE)) <=? n)%Z eqn:E1; [lia|].
  now rewrite slice_from_nonneg by lia.
Qed.

Lemma extractLines_past (content : string) (n : Z) :
  (Z.of_nat (List.length (Js.split content NEWLINE)) <= n)%Z ->
  extractLines content n = EmptyString.
Proof.
  intros H. pose proof (split_length_pos content NEWLINE) as Hp.
  unfold extractLines.
  destruct (n =? 0)%Z eqn:E0; [lia|].
  destruct (Z.of_nat (List.length (Js.split content NEWLINE)) <=? n)%Z eqn:E1;
    [reflexivity | lia].
Qed.

Lemma extractLines_resplit (content : string) (n : Z) :
  (0 <= n < Z.of_nat (List.length (Js.split content NEWLINE)))%Z ->
  Js.split (extractLines content n) NEWLINE
  = skipn (Z.to_nat n) (Js.split content NEWLINE).
Proof.
  intros H.
  destruct (Z.eq_dec n 0) as [->|Hn]; [reflexivity|].
  rewrite extractLines_middle by lia.
  apply split_join.
  - intros E. apply (f_equal (@List.length string)) in E.
    rewrite length_skipn in E. simpl in E. lia.
  - apply Forall_skipn, split_pieces_sepFree.
Qed.

(** X1.  The lines of a slice are the lines of the content from the start
    line on: splitting the result of the slicer again loses nothing and
    adds nothing. *)
Theorem extractLines_lines (content : string) (n : Z) :
  (0 <= n < Z.of_nat (List.length (Js.split content NEWLINE)))%Z ->
  Js.split (extractLines content n) NEWLINE
  = skipn (Z.to_nat n) (Js.split content NEWLINE)
  /\ List.length (Js.split (extractLines content n) NEWLINE)
     = (List.length (Js.split content NEWLINE) - Z.to_nat n)%nat.
Proof.
  intros H. split.
  - now apply extractLines_resplit.
  - rewrite extractLines_resplit by assumption. apply length_skipn.
Qed.

Lemma extractLines_lines_witness :
  (0 <= 1 < Z.of_nat (List.length (Js.split sampleText NEWLINE)))%Z
  /\ Js.split (extractLines sampleText 1) NEWLINE = ["b"; "c"].
Proof.
  split; [vm_compute; split; [discriminate | reflexivity]|].
  apply (extractLines_lines sampleText 1).
  vm_compute; split; [discriminate | reflexivity].
Defined.

(** X2.  Slicing twice is slicing once at the sum of the two start lines,
    for start lines that are not negative. *)
Theorem extractLines_compose (content : string) (a b : Z) :
  (0 <= a)%Z -> (0 <= b)%Z ->
  extractLines (extractLines content a) b = extractLines content (a + b).
Proof.
  intros Ha Hb.
  set (len := List.length (Js.split content NEWLINE)).
  destruct (Z.eq_dec a 0) as [->|Ha0]; [reflexivity|].
  destruct (Z.eq_dec b 0) as [->|Hb0]; [now rewrite Z.add_0_r|].
  destruct (Z_lt_le_dec a (Z.of_nat len)) as [Hlt|Hge].
  - pose proof (extractLines_resplit content a (conj Ha Hlt)) as Hl.
    assert (Hn : List.length (Js.split (extractLines content a) NEWLINE)
                 = (len - Z.to_nat a)%nat)
      by (rewrite Hl; apply length_skipn).
    destruct (Z_lt_le_dec (a + b) (Z.of_nat len)) as [Hin|Hout].
    + rewrite (extractLines_middle (extractLines content a) b) by lia.
      rewrite (extractLines_middle content (a + b)) by (fold len; lia).
      rewrite Hl, skipn_skipn. do 2 f_equal. lia.
    + rewrite (extractLines_past (extractLines content a) b) by lia.
      now rewrite (extractLines_past content (a + b)) by (fold len; lia).
  - rewrite (extractLines_past content a) by (fold len; lia).
    rewrite (extractLines_past content (a + b)) by (fold len; lia).
    apply extractLines_past. simpl. lia.
Qed.

Lemma extractLines_compose_witness :
  (0 <= 1)%Z /\ (0 <= 1)%Z
  /\ extractLines (extractLines sampleText 1) 1 = extractLines sampleText 2.
Proof.
  split; [lia|]. split; [lia|].
  apply (extractLines_compose sampleText 1 1); lia.
Defined.

(** X3.  A negative start line that reaches back to the first line or
    beyond it returns the whole content. *)
Theorem extractLines_negative_overshoot (content : string) (n : Z) :
  (n < 0)%Z ->
  (Z.of_nat (List.length (Js.split content NEWLINE)) <= - n)%Z ->
  extractLines content n = content.
Proof.
  intros Hneg Hle. unfold extractLines.
  destruct (n =? 0)%Z eqn:E0; [lia|].
  destruct (Z.of_nat (List.length (Js.split content NEWLINE)) <=? n)%Z eqn:E1; [lia|].
  unfold Js.slice, Js.relativeIndex.
  destruct (n <? 0)%Z eqn:E2; [|lia].
  rewrite Z.max_r by lia. simpl Z.to_nat. rewrite Nat.sub_0_r.
  simpl skipn. rewrite firstn_all. apply join_split.
Qed.

Lemma extractLines_negative_overshoot_witness :
  (-5 < 0)%Z /\ extractLines sampleText (-5) = sampleText.
Proof.
  split; [lia|].
  apply (extractLines_negative_overshoot sampleText (-5)); [lia|].
  vm_compute. discriminate.
Defined.

(* ================================================================== *)
(** ** More on external names *)
(* ================================================================== *)

Lemma join_snoc (pieces : list string) (x sep : string) :
  pieces <> [] ->
  Js.join (pieces ++ [x]) sep = Js.join pieces sep ++ sep ++ x.
Proof.
  induction pieces as [|y rest IH]; intros Hne; [congruence|].
  destruct rest as [|z rest'].
  - reflexivity.
  - change (Js.join ((y :: z :: rest') ++ [x]) sep)
      with (y ++ sep ++ Js.join ((z :: rest') ++ [x]) sep).
    rewrite IH by discriminate.
    change (Js.join (y :: z :: rest') sep)
      with (y ++ sep ++ Js.join (z :: rest') sep).
    now rewrite !string_app_assoc.
Qed.

(** The external name of a remainder, split at its dots: the segments of
    the remainder in reverse order, then [eth]. *)
Lemma externalName_split (remainder : string) :
  Js.split (Js.join (rev (Js.split remainder DOT)) "." ++ ".eth") DOT
  = (rev (Js.split remainder DOT) ++ ["eth"])%list.
Proof.
  assert (Hne : rev (Js.split remainder DOT) <> []).
  { intros E. apply (f_equal (@rev string)) in E.
    rewrite rev_involutive in E. now apply (split_not_nil remainder DOT). }
  change (Js.join (rev (Js.split remainder DOT)) "." ++ ".eth")
    with (Js.join (rev (Js.split remainder DOT)) "." ++ "." ++ "eth").
  rewrite <- join_snoc by exact Hne.
  apply (split_join _ DOT).
  - intros E. now apply app_eq_nil in E.
  - apply Forall_app. split.
    + apply Forall_rev, split_pieces_sepFree.
    + constructor; [reflexivity | constructor].
Qed.

Lemma externalName_injective (r1 r2 : string) :
  Js.join (rev (Js.split r1 DOT)) "." ++ ".eth"
  = Js.join (rev (Js.split r2 DOT)) "." ++ ".eth" ->
  r1 = r2.
Proof.
  intros H. apply (f_equal (fun name => Js.split name DOT)) in H.
  rewrite !externalName_split in H.
  apply app_inv_tail in H.
  apply (f_equal (@rev string)) in H. rewrite !rev_involutive in H.
  rewrite <- (join_split r1 DOT), <- (join_split r2 DOT). now rewrite H.
Qed.

(** X4.  The external name of a full-path identifier determines the
    identifier's remainder: split at its dots the name is the reversed
    segments followed by [eth], and reversing what precedes [eth] and
    joining it with dots gives the remainder back. *)
Theorem externalName_round_trip (id : string) (st : State) :
  Js.startsWith (stripScheme id) APOSTROPHE = false ->
  exists name,
    idToEnsName id st = (inr name, st)
    /\ Js.split name DOT = (rev (Js.split (stripScheme id) DOT) ++ ["eth"])%list
    /\ Js.join (rev (removelast (Js.split name DOT))) "." = stripScheme id.
Proof.
  intros Hs. eexists. split; [now apply idToEnsName_full|].
  rewrite externalName_split. split; [reflexivity|].
  rewrite removelast_last, rev_involutive.
  apply (join_split (stripScheme id) DOT).
Qed.

Lemma externalName_round_trip_witness :
  Js.startsWith (stripScheme "id:core.user.subname") APOSTROPHE = false
  /\ exists name,
       idToEnsName "id:core.user.subname" initialState = (inr name, initialState)
       /\ Js.split name DOT = ["subname"; "user"; "core"; "eth"]
       /\ Js.join (rev (removelast (Js.split name DOT))) "." = "core.user.subname".
Proof.
  split; [reflexivity|].
  apply (externalName_round_trip "id:core.user.subname" initialState).
  reflexivity.
Defined.

(** X5.  Two full-path identifiers with the same external name have the
    same remainder: no two paths collide on one name. *)
Theorem idToEnsName_injective (id1 id2 : string) (st1 st2 : State) :
  Js.startsWith (stripScheme id1) APOSTROPHE = false ->
  Js.startsWith (stripScheme id2) APOSTROPHE = false ->
  fst (idToEnsName id1 st1) = fst (idToEnsName id2 st2) ->
  stripScheme id1 = stripScheme id2.
Proof.
  intros H1 H2 E.
  rewrite (idToEnsName_full id1 st1 H1), (idToEnsName_full id2 st2 H2) in E.
  simpl in E. inversion E as [E'].
  now apply externalName_injective.
Qed.

Lemma idToEnsName_injective_witness :
  fst (idToEnsName "id:core.subname" initialState)
  = fst (idToEnsName "idx:core.subname" (withStored "idreg"))
  /\ stripScheme "id:core.subname" = stripScheme "idx:core.subname".
Proof.
  split; [reflexivity|].
  apply (idToEnsName_injective "id:core.subname" "idx:core.subname"
           initialState (withStored "idreg")); reflexivity.
Defined.

(** X6.  The two scheme prefixes are interchangeable: with [idx:] in place
    of [id:] the derived name and the namespace update are the same, and
    the plain tool leaves the same state and fails on the same error. *)
Theorem scheme_prefixes_interchangeable
        (RPC_URL : option string) (chain : Chain)
        (remainder : string) (start : option Z) (st : State) :
  idToEnsName ("idx:" ++ remainder) st = idToEnsName ("id:" ++ remainder) st
  /\ parseIdAndUpdateNamespace ("idx:" ++ remainder) st
     = parseIdAndUpdateNamespace ("id:" ++ remainder) st
  /\ snd (handleIdTool RPC_URL chain
            {| id := "idx:" ++ remainder; start_line := start |} st)
     = snd (handleIdTool RPC_URL chain
              {| id := "id:" ++ remainder; start_line := start |} st)
  /\ (forall e,
         fst (handleIdTool RPC_URL chain
                {| id := "idx:" ++ remainder; start_line := start |} st) = inl e
         <-> fst (handleIdTool RPC_URL chain
                    {| id := "id:" ++ remainder; start_line := start |} st) = inl e).
Proof.
  split; [reflexivity|]. split; [reflexivity|].
  destruct (configured RPC_URL) eqn:Hc.
  - rewrite !handleIdTool_pipeline by (try assumption; reflexivity).
    cbn [id start_line].
    change (impliedNamespace ("idx:" ++ remainder))
      with (impliedNamespace ("id:" ++ remainder)).
    set (st1 := withNamespace (impliedNamespace ("id:" ++ remainder)) st).
    unfold bind.
    change (idToEnsName ("idx:" ++ remainder) st1)
      with (idToEnsName ("id:" ++ remainder) st1).
    destruct (idToEnsName ("id:" ++ remainder) st1) as [[e1|ensName] st2];
      [split; [reflexivity | intros e; reflexivity]|].
    destruct (resolveEnsTextRecord chain ensName st2) as [[e2|content] st3];
      split; try reflexivity; intros e; simpl; split; intros; try assumption;
      discriminate.
  - rewrite !handleIdTool_placeholder by assumption.
    split; [reflexivity | intros e; reflexivity].
Qed.

(** X7.  The namespace a full path leaves behind is the one its leaf needs:
    after the update for a path of two or more segments, the shorthand of
    the last segment resolves to the name of the full path, and the
    namespace-get tool returns the path without its last segment. *)
Theorem shorthand_after_full_path (id N : string) (st : State) :
  Js.startsWith (stripScheme id) APOSTROPHE = false ->
  (2 <= List.length (Js.split (stripScheme id) DOT))%nat ->
  N = Js.join (removelast (Js.split (stripScheme id) DOT)) "." ->
  N <> EmptyString ->
  Js.startsWith N "id:" = false ->
  let st' := snd (parseIdAndUpdateNamespace id st) in
  let leaf := last (Js.split (stripScheme id) DOT) EmptyString in
  idToEnsName ("id:'" ++ leaf) st' = idToEnsName id st'
  /\ handleGetNamespace st' = (inr {| text := "id:" ++ N |}, st')
  /\ "id:" ++ N ++ "." ++ leaf = "id:" ++ stripScheme id.
Proof.
  intros Hs Hl HN Hne Hid st' leaf.
  assert (Hst : currentNamespace st' = Some N).
  { subst st'. rewrite parseIdAndUpdateNamespace_spec.
    rewrite (impliedNamespace_full id Hs Hl). now subst N. }
  assert (Hparts : N ++ "." ++ leaf = stripScheme id).
  { pose proof (join_split (stripScheme id) DOT) as Hj.
    pose proof (app_removelast_last EmptyString
                  (split_not_nil (stripScheme id) DOT)) as Hd.
    fold leaf in Hd. rewrite Hd in Hj.
    change (String DOT EmptyString) with ("."%string) in Hj.
    rewrite join_snoc in Hj; [now rewrite <- HN in Hj|].
    intros E. apply (f_equal (@List.length string)) in E.
    rewrite removelast_firstn_len, length_firstn in E. simpl in E. lia. }
  split; [|split].
  - rewrite (idToEnsName_full id st' Hs).
    unfold idToEnsName, bind.
    rewrite (resolveId_shorthand_set ("id:'" ++ leaf) N st');
      [|reflexivity | assumption | assumption].
    rewrite (stripId_unprefixed N Hid).
    change (Js.substring1 (stripScheme ("id:'" ++ leaf))) with leaf.
    rewrite Hparts. apply toExternalName_ok, split_not_nil.
  - unfold handleGetNamespace, bind, readNamespace. rewrite Hst.
    now rewrite (truthy_non_empty N Hne).
  - now rewrite Hparts.
Qed.

Lemma shorthand_after_full_path_witness :
  idToEnsName "id:'subname"
    (snd (parseIdAndUpdateNamespace "id:core.user.subname" initialState))
  = (inr "subname.user.core.eth", withStored "core.user")
  /\ handleGetNamespace
       (snd (parseIdAndUpdateNamespace "id:core.user.subname" initialState))
     = (inr {| text := "id:core.user" |}, withStored "core.user").
Proof.
  split.
  - apply (eq_trans
             (proj1 (shorthand_after_full_path "id:core.user.subname" "core.user"
                       initialState eq_refl
                       ltac:(simpl; lia) eq_refl ltac:(discriminate) eq_refl))).
    reflexivity.
  - apply (shorthand_after_full_path "id:core.user.subname" "core.user"
             initialState); try reflexivity; [simpl; lia | discriminate].
Defined.

(* ================================================================== *)
(** ** The content fetcher *)
(* ================================================================== *)

Lemma logged_nil (st : State) : logged st [] = st.
Proof. destruct st. unfold logged. simpl. now rewrite app_nil_r. Qed.

Lemma logged_logged (st : State) (c1 c2 : list NetCall) :
  logged (logged st c1) c2 = logged st (c1 ++ c2).
Proof. unfold logged. simpl. now rewrite app_assoc. Qed.

Lemma withNamespace_logged (v : option string) (st : State) (calls : list NetCall) :
  withNamespace v (logged st calls) = logged (withNamespace v st) calls.
Proof. destruct v; reflexivity. Qed.

Section FetchCases.

Variable chain : Chain.
Variables (ensName : string) (st : State).

Let tick : nat := List.length (network st).

Lemma fetch_normalize_throws (msg : string) :
  normalize chain ensName = inl msg ->
  resolveEnsTextRecord chain ensName st = (inl (internalError ensName msg), st).
Proof.
  intros H. unfold resolveEnsTextRecord, tryCatch, bind, liftThrowing.
  now rewrite H.
Qed.

Lemma fetch_resolver_throws (nn msg : string) :
  normalize chain ensName = inr nn ->
  getEnsResolver chain tick nn = inl msg ->
  resolveEnsTextRecord chain ensName st
  = (inl (internalError ensName msg), logged st [GetEnsResolver nn]).
Proof.
  intros H1 H2. unfold resolveEnsTextRecord, tryCatch, bind, liftThrowing, netCall.
  rewrite H1. unfold ret. fold tick. now rewrite H2.
Qed.

Lemma fetch_no_resolver (nn : string) :
  normalize chain ensName = inr nn ->
  getEnsResolver chain tick nn = inr None ->
  resolveEnsTextRecord chain ensName st
  = (inl (noResolverError ensName), logged st [GetEnsResolver nn]).
Proof.
  intros H1 H2. unfold resolveEnsTextRecord, tryCatch, bind, liftThrowing, netCall.
  rewrite H1. unfold ret. fold tick. now rewrite H2.
Qed.

Lemma fetch_record (nn address : string) :
  normalize chain ensName = inr nn ->
  getEnsResolver chain tick nn = inr (Some address) ->
  resolveEnsTextRecord chain ensName st
  = (match readText chain (S tick) address (namehash chain nn) "root-context" with
     | inl msg => inl (internalError ensName msg)
     | inr EmptyString => inl (noRecordError ensName)
     | inr record => inr record
     end,
     logged st (fetchCalls chain nn address)).
Proof.
  intros H1 H2. unfold resolveEnsTextRecord, tryCatch, bind, liftThrowing, netCall.
  rewrite H1. unfold ret. fold tick. rewrite H2.
  cbn [network currentNamespace].
  rewrite length_app. cbn [List.length]. rewrite Nat.add_1_r.
  unfold logged, fetchCalls. rewrite <- app_assoc. cbn [app].
  unfold tick.
  destruct (readText chain (S (List.length (network st))) address
                     (namehash chain nn) "root-context")
    as [msg|[|c record]]; reflexivity.
Qed.

End FetchCases.



(** What a run of the fetcher comes down to. *)
Lemma fetch_outcome (chain : Chain) (ensName : string) (st : State) :
  (exists e, resolveEnsTextRecord chain ensName st = (inl e, st))
  \/ (exists e nn,
         normalize chain ensName = inr nn
         /\ resolveEnsTextRecord chain ensName st
            = (inl e, logged st [GetEnsResolver nn]))
  \/ (exists e nn address,
         normalize chain ensName = inr nn
         /\ resolveEnsTextRecord chain ensName st
            = (inl e, logged st (fetchCalls chain nn address)))
  \/ (exists record nn address,
         normalize chain ensName = inr nn
         /\ getEnsResolver chain (List.length (network st)) nn = inr (Some address)
         /\ readText chain (S (List.length (network st))) address
                     (namehash chain nn) "root-context" = inr record
         /\ record <> EmptyString
         /\ resolveEnsTextRecord chain ensName st
            = (inr record, logged st (fetchCalls chain nn address))).
Proof.
  destruct (normalize chain ensName) as [msg|nn] eqn:H1.
  - left. eexists. exact (fetch_normalize_throws chain ensName st msg H1).
  - right.
    destruct (getEnsResolver chain (List.length (network st)) nn)
      as [msg|[address|]] eqn:H2.
    + left. do 2 eexists. split; [reflexivity|].
      exact (fetch_resolver_throws chain ensName st nn msg H1 H2).
    + right.
      pose proof (fetch_record chain ensName st nn address H1 H2) as H.
      destruct (readText chain (S (List.length (network st))) address
                         (namehash chain nn) "root-context")
        as [msg|[|c record]] eqn:H3.
      * left. do 3 eexists. split; [reflexivity | exact H].
      * left. do 3 eexists. split; [reflexivity | exact H].
      * right. exists (String c record), nn, address.
        repeat split; try assumption. discriminate.
    + left. do 2 eexists. split; [reflexivity|].
      exact (fetch_no_resolver chain ensName st nn H1 H2).
Qed.

(** X9.  The fetcher makes at most two outbound calls, in this order: the
    resolver lookup for the normalized name, then the read of the
    [root-context] record at the name's hash.  When it returns, it has made
    both, and what it returns is the record read, which is not empty. *)
Theorem fetch_calls (chain : Chain) (ensName : string) (st : State) :
  exists calls,
    snd (resolveEnsTextRecord chain ensName st) = logged st calls
    /\ (calls = []
        \/ exists nn,
            normalize chain ensName = inr nn
            /\ (calls = [GetEnsResolver nn]
                \/ exists address, calls = fetchCalls chain nn address))
    /\ (forall record,
           fst (resolveEnsTextRecord chain ensName st) = inr record ->
           record <> EmptyString
           /\ exists nn address,
               normalize chain ensName = inr nn
               /\ calls = fetchCalls chain nn address
               /\ getEnsResolver chain (List.length (network st)) nn
                  = inr (Some address)
               /\ readText chain (S (List.length (network st))) address
                           (namehash chain nn) "root-context" = inr record).
Proof.
  destruct (fetch_outcome chain ensName st)
    as [[e H]|[(e & nn & Hn & H)|[(e & nn & a & Hn & H)|(r & nn & a & Hn & Hg & Hr & Hne & H)]]];
    rewrite H; simpl fst; simpl snd.
  - exists []. rewrite logged_nil. repeat split; [now left | discriminate | discriminate].
  - exists [GetEnsResolver nn]. split; [reflexivity|]. split.
    + right. exists nn. auto.
    + intros record E. discriminate.
  - exists (fetchCalls chain nn a). split; [reflexivity|]. split.
    + right. exists nn. split; [assumption|]. right. now exists a.
    + intros record E. discriminate.
  - exists (fetchCalls chain nn a). split; [reflexivity|]. split.
    + right. exists nn. split; [assumption|]. right. now exists a.
    + intros record E. inversion E; subst record. split; [assumption|].
      exists nn, a. auto.
Qed.

Lemma fetch_failure (chain : Chain) (ensName : string) (st st' : State) (e : Exn) :
  resolveEnsTextRecord chain ensName st = (inl e, st') ->
  e = noResolverError ensName
  \/ e = noRecordError ensName
  \/ exists msg, e = internalError ensName msg.
Proof.
  intros H.
  destruct (normalize chain ensName) as [msg|nn] eqn:H1.
  - rewrite (fetch_normalize_throws chain ensName st msg H1) in H.
    inversion H. right; right. now exists msg.
  - destruct (getEnsResolver chain (List.length (network st)) nn)
      as [msg|[address|]] eqn:H2.
    + rewrite (fetch_resolver_throws chain ensName st nn msg H1 H2) in H.
      inversion H. right; right. now exists msg.
    + rewrite (fetch_record chain ensName st nn address H1 H2) in H.
      destruct (readText chain (S (List.length (network st))) address
                         (namehash chain nn) "root-context")
        as [msg|[|c record]]; inversion H.
      * right; right. now exists msg.
      * right; now left.
    + rewrite (fetch_no_resolver chain ensName st nn H1 H2) in H.
      inversion H. now left.
Qed.

(* ================================================================== *)
(** ** The plain tool, end to end *)
(* ================================================================== *)

Lemma withNamespace_network (v : option string) (st : State) :
  network (withNamespace v st) = network st.
Proof. destruct v; reflexivity. Qed.

Lemma withNamespace_twice (v : option string) (st : State) :
  withNamespace v (withNamespace v st) = withNamespace v st.
Proof. destruct v; reflexivity. Qed.

Lemma idToEnsName_reads_namespace (id : string) (sa sb : State) :
  currentNamespace sa = currentNamespace sb ->
  fst (idToEnsName id sa) = fst (idToEnsName id sb).
Proof.
  intros H.
  destruct (Js.startsWith (stripScheme id) APOSTROPHE) eqn:Hs.
  - destruct (Js.truthy (currentNamespace sa)) eqn:Ht.
    + destruct (currentNamespace sa) as [[|c N]|] eqn:Hn; try discriminate.
      unfold idToEnsName, bind.
      rewrite (resolveId_shorthand_set id (String c N) sa Hs Hn) by discriminate.
      rewrite (resolveId_shorthand_set id (String c N) sb Hs (eq_sym H))
        by discriminate.
      now rewrite !toExternalName_ok by apply split_not_nil.
    + unfold idToEnsName, bind.
      rewrite (resolveId_shorthand_unset id sa Hs Ht).
      rewrite H in Ht. now rewrite (resolveId_shorthand_unset id sb Hs Ht).
  - now rewrite !idToEnsName_full by assumption.
Qed.


Section PlainTool.

Variable RPC_URL : option string.
Variable chain : Chain.


(** What a failure of the plain tool can be. *)
Lemma handleIdTool_failure (args : IdArgs) (st st' : State) (e : Exn) :
  handleIdTool RPC_URL chain args st = (inl e, st') ->
  e = rpcError \/ e = prefixError \/ e = shorthandError
  \/ exists name,
      e = noResolverError name \/ e = noRecordError name
      \/ exists msg, e = internalError name msg.
Proof.
  intros H.
  destruct (configured RPC_URL) eqn:Hc.
  - destruct (recognized (id args)) eqn:Hr.
    + rewrite handleIdTool_pipeline in H by assumption.
      set (st1 := withNamespace (impliedNamespace (id args)) st) in *.
      unfold bind at 1 in H.
      destruct (idToEnsName_outcome (id args) st1) as [[name E]|E];
        rewrite E in H.
      * unfold bind at 1 in H.
        destruct (resolveEnsTextRecord chain name st1) as [[e'|content] st2] eqn:F;
          inversion H; subst.
        right; right; right. exists name. eapply fetch_failure; eassumption.
      * inversion H. auto.
    + rewrite handleIdTool_unrecognized in H by assumption. inversion H. auto.
  - rewrite handleIdTool_placeholder in H by assumption. inversion H. auto.
Qed.

(** What a success of the plain tool was made of. *)
Lemma handleIdTool_success (args : IdArgs) (st st' : State) (r : ToolResult) :
  handleIdTool RPC_URL chain args st = (inr r, st') ->
  configured RPC_URL = true
  /\ recognized (id args) = true
  /\ exists name nn address record,
      fst (idToEnsName (id args) (withNamespace (impliedNamespace (id args)) st))
      = inr name
      /\ normalize chain name = inr nn
      /\ getEnsResolver chain (List.length (network st)) nn = inr (Some address)
      /\ readText chain (S (List.length (network st))) address
                  (namehash chain nn) "root-context" = inr record
      /\ record <> EmptyString
      /\ st' = logged (withNamespace (impliedNamespace (id args)) st)
                      (fetchCalls chain nn address)
      /\ text r
         = idToolText (id args) name
             (match start_line args with Some n => n | None => 0%Z end)
             (extractLines record
                (match start_line args with Some n => n | None => 0%Z end)).
Proof.
  intros H.
  destruct (configured RPC_URL) eqn:Hc;
    [|rewrite handleIdTool_placeholder in H by assumption; discriminate].
  destruct (recognized (id args)) eqn:Hr;
    [|rewrite handleIdTool_unrecognized in H by assumption; discriminate].
  split; [reflexivity|]. split; [reflexivity|].
  rewrite handleIdTool_pipeline in H by assumption.
  set (st1 := withNamespace (impliedNamespace (id args)) st) in *.
  unfold bind at 1 in H.
  destruct (idToEnsName_outcome (id args) st1) as [[name E]|E];
    rewrite E in H; [|discriminate].
  unfold bind at 1 in H.
  destruct (fetch_outcome chain name st1)
    as [[e F]|[(e & nn & Hn & F)|[(e & nn & a & Hn & F)
                                 |(rec & nn & a & Hn & Hg & Hrd & Hne & F)]]];
    rewrite F in H; try discriminate.
  inversion H; subst.
  unfold st1 in Hg, Hrd. rewrite withNamespace_network in Hg, Hrd.
  exists name, nn, a, rec. rewrite E. repeat split; auto.
Qed.


End PlainTool.



(* ================================================================== *)
(** ** The execution variant *)
(* ================================================================== *)



Section ExecutionVariant.

Variable RPC_URL : option string.
Variable chain : Chain.

Lemma handleIdxTool_success (args : IdArgs) (st st' : State) (r : ToolResult) :
  handleIdxTool RPC_URL chain args st = (inr r, st') ->
  exists r1 r2 stm,
    handleIdTool RPC_URL chain args st = (inr r1, stm)
    /\ handleIdTool RPC_URL chain args stm = (inr r2, st')
    /\ text r
       = idxToolText
           (Js.replaceFirst (text r1) "--- ID Metadata ---"
                            "--- IDX Execution Context ---")
           (executionSuggestion (text r2)).
Proof.
  unfold handleIdxTool, bind. intros H.
  destruct (handleIdTool RPC_URL chain args st) as [[e|r1] stm]; [discriminate|].
  destruct (handleIdTool RPC_URL chain args stm) as [[e|r2] st2] eqn:E2;
    [discriminate|].
  inversion H; subst. now exists r1, r2, stm.
Qed.

(** The two runs of the plain tool inside a successful execution variant:
    one external name, two fetches. *)
Lemma handleIdxTool_runs (args : IdArgs) (st st' : State) (r : ToolResult) :
  handleIdxTool RPC_URL chain args st = (inr r, st') ->
  let start := match start_line args with Some n => n | None => 0%Z end in
  let st1 := withNamespace (impliedNamespace (id args)) st in
  exists name nn a1 a2 record1 record2,
    normalize chain name = inr nn
    /\ readText chain (1 + List.length (network st)) a1
                (namehash chain nn) "root-context" = inr record1
    /\ readText chain (3 + List.length (network st)) a2
                (namehash chain nn) "root-context" = inr record2
    /\ record1 <> EmptyString
    /\ st' = logged st1 (fetchCalls chain nn a1 ++ fetchCalls chain nn a2)
    /\ text r
       = idxToolText
           (Js.replaceFirst
              (idToolText (id args) name start (extractLines record1 start))
              "--- ID Metadata ---" "--- IDX Execution Context ---")
           (executionSuggestion
              (idToolText (id args) name start (extractLines record2 start))).
Proof.
  intros H start st1.
  destruct (handleIdxTool_success args st st' r H) as (r1 & r2 & stm & H1 & H2 & Ht).
  destruct (handleIdTool_success RPC_URL chain args st stm r1 H1)
    as (_ & _ & name & nn & a1 & rec1 & Hname & Hn & _ & Hrd1 & Hne1 & Hstm & Ht1).
  destruct (handleIdTool_success RPC_URL chain args stm st' r2 H2)
    as (_ & _ & name2 & nn2 & a2 & rec2 & Hname2 & Hn2 & _ & Hrd2 & _ & Hst' & Ht2).
  fold st1 in Hname, Hstm. fold start in Ht1, Ht2.
  assert (Hmid : withNamespace (impliedNamespace (id args)) stm = stm).
  { rewrite Hstm, withNamespace_logged. unfold st1.
    now rewrite withNamespace_twice. }
  rewrite Hmid in Hname2, Hst'.
  assert (name2 = name).
  { rewrite (idToEnsName_reads_namespace (id args) stm st1) in Hname2
      by (now rewrite Hstm).
    rewrite Hname in Hname2. now inversion Hname2. }
  subst name2. rewrite Hn in Hn2. inversion Hn2; subst nn2.
  assert (Hlen : List.length (network stm) = (2 + List.length (network st))%nat).
  { rewrite Hstm. unfold logged, st1. cbn [network].
    rewrite length_app, withNamespace_network. simpl. lia. }
  rewrite Hlen in Hrd2.
  exists name, nn, a1, a2, rec1, rec2.
  repeat split; try assumption.
  - rewrite Hst', Hstm. apply logged_logged.
  - now rewrite Ht, Ht1, Ht2.
Qed.


(** X13.  A successful execution variant runs the whole pipeline twice: it
    makes the two calls of a fetch two times, for the same normalized name,
    and leaves the namespace the plain tool would leave. *)
Theorem execution_fetches_twice (args : IdArgs) (st st' : State) (r : ToolResult) :
  handleIdxTool RPC_URL chain args st = (inr r, st') ->
  (exists nn a1 a2,
      network st'
      = (network st ++ fetchCalls chain nn a1 ++ fetchCalls chain nn a2)%list)
  /\ currentNamespace st'
     = match impliedNamespace (id args) with
       | Some n => Some n
       | None => currentNamespace st
       end.
Proof.
  intros H.
  destruct (handleIdxTool_runs args st st' r H)
    as (name & nn & a1 & a2 & rec1 & rec2 & _ & _ & _ & _ & Hst & _).
  split.
  - exists nn, a1, a2. rewrite Hst. unfold logged. cbn [network].
    now rewrite withNamespace_network.
  - rewrite Hst. unfold logged. cbn [currentNamespace].
    now destruct (impliedNamespace (id args)).
Qed.

End ExecutionVariant.


Lemma execution_fetches_twice_witness :
  handleIdxTool demoRpc demoChain (plainArgs "idx:core.subname") initialState
  = (inr idxDemoReply, idxDemoState)
  /\ currentNamespace idxDemoState = Some "core".
Proof.
  split; [reflexivity|].
  apply (execution_fetches_twice demoRpc demoChain (plainArgs "idx:core.subname")
           initialState idxDemoState idxDemoReply).
  reflexivity.
Defined.

(* ================================================================== *)
(** ** The dispatcher *)
(* ================================================================== *)

Ltac no_calls :=
  split; [now rewrite app_nil_r|];
  split; [simpl; lia | intros _; reflexivity].

Ltac some_calls :=
  split; [reflexivity|];
  split; [simpl; lia | discriminate].

Section Dispatcher.

Variable RPC_URL : option string.
Variable chain : Chain.

Lemma handleIdxTool_failure (args : IdArgs) (st st' : State) (e : Exn) :
  handleIdxTool RPC_URL chain args st = (inl e, st') ->
  exists sa sb, handleIdTool RPC_URL chain args sa = (inl e, sb).
Proof.
  unfold handleIdxTool, bind. intros H.
  destruct (handleIdTool RPC_URL chain args st) as [[e1|r1] stm] eqn:E1.
  - inversion H; subst. now exists st, st'.
  - destruct (handleIdTool RPC_URL chain args stm) as [[e2|r2] st2] eqn:E2;
      inversion H; subst. now exists stm, st'.
Qed.

(** The handler a request is routed to. *)
Lemma callTool_handler (request : Request) (st : State) :
  (forall msg,
      fst (match request with
           | CallId args => handleIdTool RPC_URL chain args st
           | CallIdx args => handleIdxTool RPC_URL chain args st
           | CallSetNamespace namespace => handleSetNamespace namespace st
           | CallGetNamespace => handleGetNamespace st
           | CallUnknown name => throwMcp MethodNotFound ("Unknown tool: " ++ name) st
           end) <> inl (ExOther msg)) ->
  callTool RPC_URL chain request st
  = match request with
    | CallId args => handleIdTool RPC_URL chain args st
    | CallIdx args => handleIdxTool RPC_URL chain args st
    | CallSetNamespace namespace => handleSetNamespace namespace st
    | CallGetNamespace => handleGetNamespace st
    | CallUnknown name => throwMcp MethodNotFound ("Unknown tool: " ++ name) st
    end.
Proof.
  intros H. unfold callTool, tryCatch.
  destruct request; simpl toolName;
    match goal with
    | |- context [match ?m with (_, _) => _ end] =>
        destruct m as [[[e|msg]|r] st'] eqn:E
    end; try reflexivity;
    exfalso; apply (H msg); reflexivity.
Qed.

Lemma six_errors_mcp (e : Exn) :
  (e = rpcError \/ e = prefixError \/ e = shorthandError
   \/ exists name,
       e = noResolverError name \/ e = noRecordError name
       \/ exists msg, e = internalError name msg) ->
  exists m, e = ExMcp m /\ code m <> MethodNotFound.
Proof.
  intros [->|[->|[->|(name & [->|[->|(msg & ->)]])]]];
    eexists; (split; [reflexivity | discriminate]).
Qed.

(** The dispatcher's own wrapping never applies: a handler only throws
    [McpError]s, which the dispatcher passes on. *)
Lemma callTool_routes (request : Request) (st : State) :
  callTool RPC_URL chain request st
  = match request with
    | CallId args => handleIdTool RPC_URL chain args st
    | CallIdx args => handleIdxTool RPC_URL chain args st
    | CallSetNamespace namespace => handleSetNamespace namespace st
    | CallGetNamespace => handleGetNamespace st
    | CallUnknown name => throwMcp MethodNotFound ("Unknown tool: " ++ name) st
    end.
Proof.
  apply callTool_handler. intros msg H.
  destruct request as [args|args|namespace| |name].
  - destruct (handleIdTool RPC_URL chain args st) as [[e|r] st'] eqn:E;
      simpl in H; [|discriminate].
    inversion H; subst e.
    destruct (six_errors_mcp _ (handleIdTool_failure RPC_URL chain args st st' _ E))
      as (m & Hm & _). discriminate.
  - destruct (handleIdxTool RPC_URL chain args st) as [[e|r] st'] eqn:E;
      simpl in H; [|discriminate].
    inversion H; subst e.
    destruct (handleIdxTool_failure args st st' _ E) as (sa & sb & F).
    destruct (six_errors_mcp _ (handleIdTool_failure RPC_URL chain args sa sb _ F))
      as (m & Hm & _). discriminate.
  - unfold handleSetNamespace in H.
    destruct (negb (Js.startsWith namespace "id:")); discriminate.
  - unfold handleGetNamespace, bind, readNamespace in H.
    destruct (negb (Js.truthy (currentNamespace st))); discriminate.
  - discriminate.
Qed.

Lemma callTool_failure_code (request : Request) (st st' : State) (e : Exn) :
  callTool RPC_URL chain request st = (inl e, st') ->
  exists m,
    e = ExMcp m
    /\ (code m = MethodNotFound -> exists name, request = CallUnknown name).
Proof.
  rewrite callTool_routes. intros H.
  destruct request as [args|args|namespace| |name].
  - destruct (six_errors_mcp _ (handleIdTool_failure RPC_URL chain args st st' e H))
      as (m & Hm & Hc).
    exists m. split; [assumption | intros; congruence].
  - destruct (handleIdxTool_failure args st st' e H) as (sa & sb & F).
    destruct (six_errors_mcp _ (handleIdTool_failure RPC_URL chain args sa sb e F))
      as (m & Hm & Hc).
    exists m. split; [assumption | intros; congruence].
  - unfold handleSetNamespace in H.
    destruct (negb (Js.startsWith namespace "id:")); inversion H.
    eexists. split; [reflexivity | discriminate].
  - unfold handleGetNamespace, bind, readNamespace in H.
    destruct (negb (Js.truthy (currentNamespace st))); inversion H.
    eexists. split; [reflexivity | discriminate].
  - inversion H. eexists. split; [reflexivity|]. intros _. now exists name.
Qed.

Lemma handleIdTool_calls (args : IdArgs) (st : State) :
  exists calls,
    network (snd (handleIdTool RPC_URL chain args st)) = (network st ++ calls)%list
    /\ (List.length calls <= 2)%nat
    /\ (configured RPC_URL = false -> calls = []).
Proof.
  destruct (configured RPC_URL) eqn:Hc.
  - destruct (recognized (id args)) eqn:Hr.
    + rewrite handleIdTool_pipeline by assumption.
      set (st1 := withNamespace (impliedNamespace (id args)) st).
      assert (Hn1 : network st1 = network st)
        by (unfold st1; apply withNamespace_network).
      unfold bind at 1.
      destruct (idToEnsName_outcome (id args) st1) as [[name E]|E]; rewrite E.
      * unfold bind at 1.
        destruct (fetch_outcome chain name st1)
          as [[e F]|[(e & nn & Hn & F)|[(e & nn & a & Hn & F)
                                       |(rec & nn & a & Hn & Hg & Hrd & Hne & F)]]];
          rewrite F; simpl snd; unfold logged; cbn [network]; rewrite ?Hn1.
        -- exists []. no_calls.
        -- exists [GetEnsResolver nn]. some_calls.
        -- exists (fetchCalls chain nn a). some_calls.
        -- exists (fetchCalls chain nn a). some_calls.
      * simpl snd. rewrite Hn1. exists []. no_calls.
    + rewrite handleIdTool_unrecognized by assumption. simpl snd.
      exists []. no_calls.
  - rewrite handleIdTool_placeholder by assumption. simpl snd.
    exists []. no_calls.
Qed.

(** X14.  What the dispatcher can fail with.  An unknown tool fails with
    [MethodNotFound] naming the tool; the namespace-set tool only with the
    prefix error, on an input without [id:]; the namespace-get tool only
    with the no-namespace error, when none is set; these leave the state as
    it was.  The identifier tools fail with the endpoint error, the prefix
    error, the missing-namespace error or one of the fetcher's three.  The
    dispatcher's own internal error is never raised. *)
Theorem dispatcher_failures (request : Request) (st st' : State) (e : Exn) :
  callTool RPC_URL chain request st = (inl e, st') ->
  match request with
  | CallUnknown name => e = unknownToolError name /\ st' = st
  | CallSetNamespace namespace =>
      e = namespacePrefixError /\ st' = st
      /\ Js.startsWith namespace "id:" = false
  | CallGetNamespace =>
      e = noNamespaceError /\ st' = st
      /\ Js.truthy (currentNamespace st) = false
  | CallId _ | CallIdx _ =>
      e = rpcError \/ e = prefixError \/ e = shorthandError
      \/ exists name,
          e = noResolverError name \/ e = noRecordError name
          \/ exists msg, e = internalError name msg
  end.
Proof.
  rewrite callTool_routes. intros H.
  destruct request as [args|args|namespace| |name].
  - eapply handleIdTool_failure; eassumption.
  - destruct (handleIdxTool_failure args st st' e H) as (sa & sb & F).
    eapply handleIdTool_failure; eassumption.
  - unfold handleSetNamespace in H.
    destruct (Js.startsWith namespace "id:") eqn:Hp; cbn [negb] in H.
    + discriminate.
    + inversion H. auto.
  - unfold handleGetNamespace, bind, readNamespace in H.
    destruct (Js.truthy (currentNamespace st)) eqn:Ht; cbn [negb] in H.
    + discriminate.
    + inversion H. auto.
  - inversion H. auto.
Qed.

(** X15.  The tools the dispatcher knows are the tools it lists: a call
    fails with [MethodNotFound] for its name exactly when the name is not
    in the tool list. *)
Theorem unknown_tool_iff_unlisted (name : string) (args : CallArguments) (st : State) :
  fst (handleCallTool RPC_URL chain name args st) = inl (unknownToolError name)
  <-> ~ In name (map tool listedTools).
Proof.
  unfold handleCallTool. split.
  - intros H Hin.
    destruct (callTool RPC_URL chain (requestOf name args) st) as [[e|r] st'] eqn:E;
      simpl in H; [|discriminate].
    inversion H; subst e.
    destruct (callTool_failure_code _ _ _ _ E) as (m & Hm & Hu).
    inversion Hm; subst m.
    destruct (Hu eq_refl) as [n Hreq].
    simpl in Hin.
    destruct Hin as [<-|[<-|[<-|[<-|[]]]]]; discriminate.
  - intros Hnot. simpl in Hnot.
    unfold requestOf.
    destruct (String.eqb_spec name "id") as [->|_]; [exfalso; auto|].
    destruct (String.eqb_spec name "idx") as [->|_]; [exfalso; auto|].
    destruct (String.eqb_spec name "id_set_namespace") as [->|_];
      [exfalso; auto|].
    destruct (String.eqb_spec name "id_get_namespace") as [->|_];
      [exfalso; auto 6|].
    now rewrite callTool_routes.
Qed.

(** X16.  Every request only appends to the record of outbound calls: at
    most two calls for the plain tool, at most four for the execution
    variant, none for the namespace tools and for unknown tools; and none
    for any request while the endpoint setting is the placeholder. *)
Theorem dispatcher_network (request : Request) (st : State) :
  exists calls,
    network (snd (callTool RPC_URL chain request st)) = (network st ++ calls)%list
    /\ (List.length calls
        <= match request with
           | CallId _ => 2
           | CallIdx _ => 4
           | _ => 0
           end)%nat
    /\ (configured RPC_URL = false -> calls = []).
Proof.
  rewrite callTool_routes.
  destruct request as [args|args|namespace| |name].
  - apply handleIdTool_calls.
  - unfold handleIdxTool, bind.
    destruct (handleIdTool_calls args st) as (c1 & H1 & L1 & Z1).
    destruct (handleIdTool RPC_URL chain args st) as [[e1|r1] stm];
      simpl snd in H1.
    + exists c1. split; [assumption|]. split; [lia | assumption].
    + destruct (handleIdTool_calls args stm) as (c2 & H2 & L2 & Z2).
      destruct (handleIdTool RPC_URL chain args stm) as [[e2|r2] st2];
        simpl snd in H2 |- *;
        (exists (c1 ++ c2)%list; rewrite H2, H1, <- app_assoc;
         split; [reflexivity|];
         split; [rewrite length_app; lia|];
         intros Hc; now rewrite (Z1 Hc), (Z2 Hc)).
  - exists []. unfold handleSetNamespace.
    destruct (negb (Js.startsWith namespace "id:")); no_calls.
  - exists []. unfold handleGetNamespace, bind, readNamespace.
    destruct (negb (Js.truthy (currentNamespace st))); no_calls.
  - exists []. no_calls.
Qed.

End Dispatcher.

Lemma dispatcher_failures_witness :
  callTool demoRpc demoChain (CallSetNamespace "core") initialState
  = (inl namespacePrefixError, initialState)
  /\ Js.startsWith "core" "id:" = false.
Proof.
  split; [reflexivity|].
  apply (dispatcher_failures demoRpc demoChain (CallSetNamespace "core")
           initialState initialState namespacePrefixError).
  reflexivity.
Defined.

(* ================================================================== *)
(** ** The hint rules *)
(* ================================================================== *)

(** X17.  The two shebang tests of the hint rules never decide anything:
    a text containing [#!/bin/bash] contains [bash], and one containing
    [#!/usr/bin/env python] contains [python], so the hint is the one the
    rules give without them. *)
Theorem shebang_tests_redundant (contentText : string) :
  executionSuggestion contentText
  = let lowerContent := Js.toLowerCase contentText in
    if Js.includes lowerContent "html" && Js.includes lowerContent "javascript"
    then hintHtml
    else if Js.includes lowerContent "bash" || Js.includes lowerContent "shell"
    then hintBash
    else if Js.includes lowerContent "python"
    then hintPython
    else if Js.includes lowerContent "node" || Js.includes lowerContent "javascript"
            || Js.includes lowerContent "npm"
    then hintNode
    else hintGeneric.
Proof.
  unfold executionSuggestion.
  set (l := Js.toLowerCase contentText). cbv zeta.
  assert (B : Js.includes l "#!/bin/bash" || Js.includes l "bash" = Js.includes l "bash").
  { destruct (Js.includes l "#!/bin/bash") eqn:E; [|reflexivity].
    now rewrite (includes_suffix l "#!/bin/" "bash" E). }
  assert (P : Js.includes l "python" || Js.includes l "#!/usr/bin/env python"
              = Js.includes l "python").
  { destruct (Js.includes l "#!/usr/bin/env python") eqn:E.
    - now rewrite (includes_suffix l "#!/usr/bin/env " "python" E).
    - apply orb_false_r. }
  now rewrite B, P.
Qed.

(* ================================================================== *)
(** ** The endpoint setting and the scheme prefix *)
(* ================================================================== *)

(** X18.  The endpoint counts as configured exactly when [RPC_URL] is set
    to a string that is neither empty nor the placeholder itself. *)
Theorem configured_iff (RPC_URL : option string) :
  configured RPC_URL = true
  <-> exists url,
      RPC_URL = Some url /\ url <> EmptyString /\ url <> PLACEHOLDER.
Proof.
  unfold configured, rpcUrl. split.
  - intros H. destruct RPC_URL as [[|c url]|].
    + change (Js.truthy (Some EmptyString)) with false in H. cbv iota in H.
      rewrite String.eqb_refl in H. discriminate.
    + change (Js.truthy (Some (String c url))) with true in H. cbv iota in H.
      exists (String c url). split; [reflexivity|]. split; [discriminate|].
      apply negb_true_iff in H. now apply String.eqb_neq in H.
    + rewrite String.eqb_refl in H. discriminate.
  - intros (url & -> & Hne & Hp).
    destruct url as [|c url]; [congruence|].
    change (Js.truthy (Some (String c url))) with true. cbv iota.
    apply negb_true_iff. now apply String.eqb_neq.
Qed.

(** X19.  The prefix test of the tools and the prefix removal of the parser
    agree: an identifier passes the test exactly when it is [id:] or [idx:]
    followed by what the removal leaves, and on an identifier that fails
    the test the removal changes nothing. *)
Theorem prefix_gate_matches_stripping (id : string) :
  (recognized id = true
   <-> (id = "id:" ++ stripScheme id \/ id = "idx:" ++ stripScheme id))
  /\ (recognized id = false -> stripScheme id = id).
Proof.
  unfold recognized, stripScheme.
  rewrite !startsWith_dropPrefix.
  destruct (Js.dropPrefix id "id:") as [r1|] eqn:E1.
  - apply dropPrefix_Some in E1. split; [|discriminate].
    split; [intros _; now left | reflexivity].
  - destruct (Js.dropPrefix id "idx:") as [r2|] eqn:E2.
    + apply dropPrefix_Some in E2. split; [|discriminate].
      split; [intros _; now right | reflexivity].
    + split; [|reflexivity]. split; [discriminate|].
      intros [H|H]; rewrite H in *.
      * now rewrite dropPrefix_append in E1.
      * now rewrite dropPrefix_append in E2.
Qed.

(* ================================================================== *)
(** ** Masking the endpoint in the direct resolution script *)
(* ================================================================== *)

(** X20.  Masking replaces what follows the last slash of the endpoint by
    three stars, whatever it is, and keeps what precedes it; an endpoint
    without a slash is printed as it is. *)
Theorem maskRpcUrl_hides_key (base key : string) :
  sepFree SLASH key ->
  maskRpcUrl (base ++ "/" ++ key) = base ++ "/***"
  /\ maskRpcUrl key = key.
Proof.
  intros Hk. split.
  - induction base as [|c base IH].
    + simpl. unfold sepFree in Hk. now rewrite Hk.
    + change (maskRpcUrl (String c base ++ "/" ++ key))
        with (if Ascii.eqb c SLASH
                 && negb (Js.includes (base ++ "/" ++ key) (String SLASH EmptyString))
              then "/***"
              else String c (maskRpcUrl (base ++ "/" ++ key))).
      rewrite (includes_later base ("/" ++ key) (String SLASH EmptyString))
        by apply (includes_here "/" key).
      rewrite andb_false_r. now rewrite IH.
  - clear base. induction key as [|c key IH]; [reflexivity|].
    apply sepFree_cons in Hk. destruct Hk as [Hc Hk].
    simpl. rewrite Hc. simpl. now rewrite (IH Hk).
Qed.

Lemma maskRpcUrl_hides_key_witness :
  sepFree SLASH "SECRET-KEY"
  /\ maskRpcUrl "https://eth-mainnet.g.alchemy.com/v2/SECRET-KEY"
     = "https://eth-mainnet.g.alchemy.com/v2/***".
Proof.
  split; [reflexivity|].
  apply (maskRpcUrl_hides_key "https://eth-mainnet.g.alchemy.com/v2" "SECRET-KEY").
  reflexivity.
Defined.

(* ================================================================== *)
(** ** The statements above on the sample deployment *)
(* ================================================================== *)

Lemma fetch_calls_witness :
  exists calls,
    snd (resolveEnsTextRecord demoChain "subname.core.eth" initialState)
    = logged initialState calls
    /\ (calls = []
        \/ exists nn,
            normalize demoChain "subname.core.eth" = inr nn
            /\ (calls = [GetEnsResolver nn]
                \/ exists address, calls = fetchCalls demoChain nn address))
    /\ (forall record,
           fst (resolveEnsTextRecord demoChain "subname.core.eth" initialState)
           = inr record ->
           record <> EmptyString
           /\ exists nn address,
               normalize demoChain "subname.core.eth" = inr nn
               /\ calls = fetchCalls demoChain nn address
               /\ getEnsResolver demoChain
                    (List.length (network initialState)) nn = inr (Some address)
               /\ readText demoChain (S (List.length (network initialState)))
                    address (namehash demoChain nn) "root-context" = inr record).
Proof. exact (fetch_calls demoChain "subname.core.eth" initialState). Defined.

Lemma unknown_tool_iff_unlisted_witness :
  ~ In "id_clear_namespace" (map tool listedTools)
  /\ fst (handleCallTool demoRpc demoChain "id_clear_namespace"
            {| arguments_id := "id:core";
               arguments_start_line := None;
               arguments_namespace := "id:core" |} initialState)
     = inl (unknownToolError "id_clear_namespace").
Proof.
  assert (H : ~ In "id_clear_namespace" (map tool listedTools)).
  { simpl. intros [H|[H|[H|[H|[]]]]]; discriminate. }
  split; [exact H|].
  apply (proj2 (unknown_tool_iff_unlisted demoRpc demoChain "id_clear_namespace"
                  {| arguments_id := "id:core";
                     arguments_start_line := None;
                     arguments_namespace := "id:core" |} initialState)).
  exact H.
Defined.

Lemma dispatcher_network_witness :
  exists calls,
    network (snd (callTool None demoChain
                    (CallIdx (plainArgs "idx:core.subname")) initialState))
    = (network initialState ++ calls)%list
    /\ (List.length calls <= 4)%nat
    /\ (configured None = false -> calls = []).
Proof.
  exact (dispatcher_network None demoChain
           (CallIdx (plainArgs "idx:core.subname")) initialState).
Defined.

Lemma configured_iff_witness :
  configured demoRpc = true /\ configured (Some EmptyString) <> true.
Proof.
  split.
  - apply (proj2 (configured_iff demoRpc)).
    eexists. split; [reflexivity|]. split; discriminate.
  - intros H. apply (proj1 (configured_iff (Some EmptyString))) in H.
    destruct H as (url & E & Hne & _). inversion E. congruence.
Defined.

Lemma prefix_gate_matches_stripping_witness :
  recognized "idx:core.subname" = true
  /\ stripScheme "invalid-format" = "invalid-format".
Proof.
  split.
  - apply (proj1 (prefix_gate_matches_stripping "idx:core.subname")).
    right. reflexivity.
  - apply (proj2 (prefix_gate_matches_stripping "invalid-format")).
    reflexivity.
Defined.
